(** * gozulipbot: message construction, reply routing and event parsing

    A shallow embedding of [message.go] (package [gozulipbot]) together with
    the part of Go's [encoding/json] that the package drives, and the
    properties of the message routing, the request fields and the event
    parser that follow from the code.

    Layout:
    - the data model ([Message], [EventMessage], [DisplayRecipient], [User]);
    - [Module json]: a reader for JSON texts and the decoding rules of
      [json.Unmarshal] for the Go types that occur in the package;
    - the functions of [message.go], in the order of the source;
    - the theorems. *)

From Stdlib Require Import ZArith NArith Ascii String List Lia.
From stdpp Require Import base option list strings sorting gmap.

Local Open Scope string_scope.
Local Open Scope list_scope.

(** ** Go values *)

(** [[]byte]: Rocq strings are sequences of 8-bit characters. *)
Abbreviation bytes := string.

(** A function that returns [(T, error)] and whose callers never look at the
    [T] when the error is set returns a [result]. *)
Inductive result (E A : Type) : Type :=
| Ok (a : A)
| Err (e : E).
Arguments Ok {E A} a.
Arguments Err {E A} e.

#[global] Instance result_bind {E} : MBind (result E) :=
  λ A B k r,
    match r with
    | Ok a => k a
    | Err e => Err e
    end.

(** A Go slice: [nil], or the elements of a slice that is not nil. The
    two differ for a slice of length 0. *)
Inductive slice (A : Type) : Type :=
| nilSlice
| Slice (elems : list A).
Arguments nilSlice {A}.
Arguments Slice {A} elems.

(** The elements [range] visits; [len] is their number. *)
Definition elemsOf {A} (s : slice A) : list A :=
  match s with
  | nilSlice => []
  | Slice l => l
  end.

(** A parsed JSON value. Members of arrays and objects carry the bytes they
    were read from next to their value, because [json.RawMessage] and
    [UnmarshalJSON] receive those bytes and not a value. Object members keep
    their order and their duplicates. *)
#[warnings="-register-all"]
Inductive Value : Type :=
| Null
| Bool (b : bool)
| Number (literal : string)
| Str (s : string)
| Array (elements : list (bytes * Value))
| Object (members : list (string * (bytes * Value))).

(** ** The data model of message.go *)

(** [Emails] is kept as the list of its elements: the package takes its
    length, its first element and ranges over it, and never compares it
    with [nil]. *)
Record Message : Type := mkMessage {
  Stream : string;
  Topic : string;
  Emails : list string;
  Content : string
}.

Record User : Type := mkUser {
  Domain : string;
  Email : string;
  FullName : string;
  ID : Z;
  IsMirrorDummy : bool;
  ShortName : string
}.

Record DisplayRecipient : Type := mkDisplayRecipient {
  Users : slice User;
  DTopic : string
}.

Record EventMessage : Type := mkEventMessage {
  AvatarURL : string;
  Client : string;
  EContent : string;
  ContentType : string;
  EDisplayRecipient : DisplayRecipient;
  GravatarHash : string;
  EID : Z;
  RecipientID : Z;
  SenderDomain : string;
  SenderEmail : string;
  SenderFullName : string;
  SenderID : Z;
  SenderShortName : string;
  Subject : string;
  SubjectLinks : slice Value;
  Timestamp : Z;
  EType : string
}.

(** Go's zero values. *)
Definition zeroUser : User :=
  mkUser EmptyString EmptyString EmptyString 0 false EmptyString.

Definition zeroDisplayRecipient : DisplayRecipient :=
  mkDisplayRecipient nilSlice EmptyString.

Definition zeroEventMessage : EventMessage :=
  mkEventMessage EmptyString EmptyString EmptyString EmptyString
    zeroDisplayRecipient EmptyString 0 0 EmptyString EmptyString EmptyString
    0 EmptyString EmptyString nilSlice 0 EmptyString.

(** Assignments to one field, [r.F = x]. *)

Definition setDomain (x : string) (r : User) : User :=
  mkUser x (Email r) (FullName r) (ID r) (IsMirrorDummy r) (ShortName r).

Definition setEmail (x : string) (r : User) : User :=
  mkUser (Domain r) x (FullName r) (ID r) (IsMirrorDummy r) (ShortName r).

Definition setFullName (x : string) (r : User) : User :=
  mkUser (Domain r) (Email r) x (ID r) (IsMirrorDummy r) (ShortName r).

Definition setID (x : Z) (r : User) : User :=
  mkUser (Domain r) (Email r) (FullName r) x (IsMirrorDummy r) (ShortName r).

Definition setIsMirrorDummy (x : bool) (r : User) : User :=
  mkUser (Domain r) (Email r) (FullName r) (ID r) x (ShortName r).

Definition setShortName (x : string) (r : User) : User :=
  mkUser (Domain r) (Email r) (FullName r) (ID r) (IsMirrorDummy r) x.

Definition setUsers (x : slice User) (r : DisplayRecipient) : DisplayRecipient :=
  mkDisplayRecipient x (DTopic r).

Definition setDTopic (x : string) (r : DisplayRecipient) : DisplayRecipient :=
  mkDisplayRecipient (Users r) x.

Definition setAvatarURL (x : string) (r : EventMessage) : EventMessage :=
  mkEventMessage x (Client r) (EContent r) (ContentType r)
    (EDisplayRecipient r) (GravatarHash r) (EID r) (RecipientID r)
    (SenderDomain r) (SenderEmail r) (SenderFullName r) (SenderID r)
    (SenderShortName r) (Subject r) (SubjectLinks r) (Timestamp r) (EType r).

Definition setClient (x : string) (r : EventMessage) : EventMessage :=
  mkEventMessage (AvatarURL r) x (EContent r) (ContentType r)
    (EDisplayRecipient r) (GravatarHash r) (EID r) (RecipientID r)
    (SenderDomain r) (SenderEmail r) (SenderFullName r) (SenderID r)
    (SenderShortName r) (Subject r) (SubjectLinks r) (Timestamp r) (EType r).

Definition setEContent (x : string) (r : EventMessage) : EventMessage :=
  mkEventMessage (AvatarURL r) (Client r) x (ContentType r)
    (EDisplayRecipient r) (GravatarHash r) (EID r) (RecipientID r)
    (SenderDomain r) (SenderEmail r) (SenderFullName r) (SenderID r)
    (SenderShortName r) (Subject r) (SubjectLinks r) (Timestamp r) (EType r).

Definition setContentType (x : string) (r : EventMessage) : EventMessage :=
  mkEventMessage (AvatarURL r) (Client r) (EContent r) x (EDisplayRecipient
    r) (GravatarHash r) (EID r) (RecipientID r) (SenderDomain r) (SenderEmail
    r) (SenderFullName r) (SenderID r) (SenderShortName r) (Subject r)
    (SubjectLinks r) (Timestamp r) (EType r).

Definition setEDisplayRecipient (x : DisplayRecipient) (r : EventMessage)
  : EventMessage :=
  mkEventMessage (AvatarURL r) (Client r) (EContent r) (ContentType r) x
    (GravatarHash r) (EID r) (RecipientID r) (SenderDomain r) (SenderEmail r)
    (SenderFullName r) (SenderID r) (SenderShortName r) (Subject r)
    (SubjectLinks r) (Timestamp r) (EType r).

Definition setGravatarHash (x : string) (r : EventMessage) : EventMessage :=
  mkEventMessage (AvatarURL r) (Client r) (EContent r) (ContentType r)
    (EDisplayRecipient r) x (EID r) (RecipientID r) (SenderDomain r)
    (SenderEmail r) (SenderFullName r) (SenderID r) (SenderShortName r)
    (Subject r) (SubjectLinks r) (Timestamp r) (EType r).

Definition setEID (x : Z) (r : EventMessage) : EventMessage :=
  mkEventMessage (AvatarURL r) (Client r) (EContent r) (ContentType r)
    (EDisplayRecipient r) (GravatarHash r) x (RecipientID r) (SenderDomain r)
    (SenderEmail r) (SenderFullName r) (SenderID r) (SenderShortName r)
    (Subject r) (SubjectLinks r) (Timestamp r) (EType r).

Definition setRecipientID (x : Z) (r : EventMessage) : EventMessage :=
  mkEventMessage (AvatarURL r) (Client r) (EContent r) (ContentType r)
    (EDisplayRecipient r) (GravatarHash r) (EID r) x (SenderDomain r)
    (SenderEmail r) (SenderFullName r) (SenderID r) (SenderShortName r)
    (Subject r) (SubjectLinks r) (Timestamp r) (EType r).

Definition setSenderDomain (x : string) (r : EventMessage) : EventMessage :=
  mkEventMessage (AvatarURL r) (Client r) (EContent r) (ContentType r)
    (EDisplayRecipient r) (GravatarHash r) (EID r) (RecipientID r) x
    (SenderEmail r) (SenderFullName r) (SenderID r) (SenderShortName r)
    (Subject r) (SubjectLinks r) (Timestamp r) (EType r).

Definition setSenderEmail (x : string) (r : EventMessage) : EventMessage :=
  mkEventMessage (AvatarURL r) (Client r) (EContent r) (ContentType r)
    (EDisplayRecipient r) (GravatarHash r) (EID r) (RecipientID r)
    (SenderDomain r) x (SenderFullName r) (SenderID r) (SenderShortName r)
    (Subject r) (SubjectLinks r) (Timestamp r) (EType r).

Definition setSenderFullName (x : string) (r : EventMessage) : EventMessage :=
  mkEventMessage (AvatarURL r) (Client r) (EContent r) (ContentType r)
    (EDisplayRecipient r) (GravatarHash r) (EID r) (RecipientID r)
    (SenderDomain r) (SenderEmail r) x (SenderID r) (SenderShortName r)
    (Subject r) (SubjectLinks r) (Timestamp r) (EType r).

Definition setSenderID (x : Z) (r : EventMessage) : EventMessage :=
  mkEventMessage (AvatarURL r) (Client r) (EContent r) (ContentType r)
    (EDisplayRecipient r) (GravatarHash r) (EID r) (RecipientID r)
    (SenderDomain r) (SenderEmail r) (SenderFullName r) x (SenderShortName r)
    (Subject r) (SubjectLinks r) (Timestamp r) (EType r).

Definition setSenderShortName (x : string) (r : EventMessage) : EventMessage :=
  mkEventMessage (AvatarURL r) (Client r) (EContent r) (ContentType r)
    (EDisplayRecipient r) (GravatarHash r) (EID r) (RecipientID r)
    (SenderDomain r) (SenderEmail r) (SenderFullName r) (SenderID r) x
    (Subject r) (SubjectLinks r) (Timestamp r) (EType r).

Definition setSubject (x : string) (r : EventMessage) : EventMessage :=
  mkEventMessage (AvatarURL r) (Client r) (EContent r) (ContentType r)
    (EDisplayRecipient r) (GravatarHash r) (EID r) (RecipientID r)
    (SenderDomain r) (SenderEmail r) (SenderFullName r) (SenderID r)
    (SenderShortName r) x (SubjectLinks r) (Timestamp r) (EType r).

Definition setSubjectLinks (x : slice Value) (r : EventMessage) : EventMessage :=
  mkEventMessage (AvatarURL r) (Client r) (EContent r) (ContentType r)
    (EDisplayRecipient r) (GravatarHash r) (EID r) (RecipientID r)
    (SenderDomain r) (SenderEmail r) (SenderFullName r) (SenderID r)
    (SenderShortName r) (Subject r) x (Timestamp r) (EType r).

Definition setTimestamp (x : Z) (r : EventMessage) : EventMessage :=
  mkEventMessage (AvatarURL r) (Client r) (EContent r) (ContentType r)
    (EDisplayRecipient r) (GravatarHash r) (EID r) (RecipientID r)
    (SenderDomain r) (SenderEmail r) (SenderFullName r) (SenderID r)
    (SenderShortName r) (Subject r) (SubjectLinks r) x (EType r).

Definition setEType (x : string) (r : EventMessage) : EventMessage :=
  mkEventMessage (AvatarURL r) (Client r) (EContent r) (ContentType r)
    (EDisplayRecipient r) (GravatarHash r) (EID r) (RecipientID r)
    (SenderDomain r) (SenderEmail r) (SenderFullName r) (SenderID r)
    (SenderShortName r) (Subject r) (SubjectLinks r) (Timestamp r) x.

Definition setEmails (x : list string) (r : Message) : Message :=
  mkMessage (Stream r) (Topic r) x (Content r).

(** The errors the package creates or passes on. [fmt_Errorf] keeps the
    format and the operands of its verbs instead of the formatted text;
    [UnmarshalTypeError] keeps the JSON kind met ([Value]) and the Go type
    wanted ([Type]); [SyntaxError] keeps the message. *)
Inductive error : Type :=
| errors_New (text : string)
| fmt_Errorf (format : string) (a : list EventMessage)
| SyntaxError (msg : string)
| UnmarshalTypeError (value type : string).

Abbreviation res := (result error).

(** ** encoding/json *)

Module json.

Definition unexpectedEnd : error :=
  SyntaxError "unexpected end of JSON input".
Definition invalidCharacter : error :=
  SyntaxError "invalid character".
Definition exceededDepth : error :=
  SyntaxError "exceeded max depth".

(** *** Characters *)

Definition code (c : ascii) : N := N_of_ascii c.
Definition isByte (n : N) (c : ascii) : bool := N.eqb (code c) n.

Definition quote : N := 34.
Definition backslash : N := 92.

Definition isSpace (c : ascii) : bool :=
  isByte 32 c || isByte 9 c || isByte 10 c || isByte 13 c.

Definition isDigit (c : ascii) : bool :=
  N.leb 48 (code c) && N.leb (code c) 57.

Definition hexValue (c : ascii) : option N :=
  let n := code c in
  if N.leb 48 n && N.leb n 57 then Some (n - 48)%N
  else if N.leb 97 n && N.leb n 102 then Some (n - 87)%N
  else if N.leb 65 n && N.leb n 70 then Some (n - 55)%N
  else None.

Definition chr (n : N) : ascii := ascii_of_N n.

Fixpoint skipSpace (s : bytes) : bytes :=
  match s with
  | String c r => if isSpace c then skipSpace r else s
  | EmptyString => s
  end.

(** The bytes of [s] in front of its suffix [rest]. *)
Definition consumed (s rest : bytes) : bytes :=
  substring 0 (String.length s - String.length rest) s.

(** *** Literals: the rest of [null], [true], [false] *)

Fixpoint literal (lit s : bytes) : res bytes :=
  match lit with
  | EmptyString => Ok s
  | String c lit' =>
      match s with
      | EmptyString => Err unexpectedEnd
      | String c' s' =>
          if Ascii.eqb c c' then literal lit' s' else Err invalidCharacter
      end
  end.

(** *** Numbers *)

Fixpoint digits (s : bytes) : bytes * bytes :=
  match s with
  | String c r =>
      if isDigit c then let '(ds, rest) := digits r in (String c ds, rest)
      else (EmptyString, s)
  | EmptyString => (EmptyString, s)
  end.

(** At least one digit. *)
Definition digits1 (s : bytes) : res (bytes * bytes) :=
  match s with
  | EmptyString => Err unexpectedEnd
  | String c _ => if isDigit c then Ok (digits s) else Err invalidCharacter
  end.

Definition integerPart (s : bytes) : res (bytes * bytes) :=
  match s with
  | EmptyString => Err unexpectedEnd
  | String c r =>
      if isByte 48 c then Ok (String c EmptyString, r)
      else if isDigit c then Ok (digits s)
      else Err invalidCharacter
  end.

Definition fractionPart (s : bytes) : res (bytes * bytes) :=
  match s with
  | String c r =>
      if isByte 46 c then
        '(ds, rest) ← digits1 r ; Ok (String c ds, rest)
      else Ok (EmptyString, s)
  | EmptyString => Ok (EmptyString, s)
  end.

Definition exponentPart (s : bytes) : res (bytes * bytes) :=
  match s with
  | String c r =>
      if isByte 101 c || isByte 69 c then
        match r with
        | String sg r' =>
            if isByte 43 sg || isByte 45 sg then
              '(ds, rest) ← digits1 r' ; Ok (String c (String sg ds), rest)
            else
              '(ds, rest) ← digits1 r ; Ok (String c ds, rest)
        | EmptyString => Err unexpectedEnd
        end
      else Ok (EmptyString, s)
  | EmptyString => Ok (EmptyString, s)
  end.

Definition number (s : bytes) : res (bytes * bytes) :=
  let '(sign, s1) :=
    match s with
    | String c r => if isByte 45 c then (String c EmptyString, r) else (EmptyString, s)
    | EmptyString => (EmptyString, s)
    end in
  '(int, s2) ← integerPart s1 ;
  '(frac, s3) ← fractionPart s2 ;
  '(exp, s4) ← exponentPart s3 ;
  Ok (sign +:+ int +:+ frac +:+ exp, s4).

(** *** Strings *)

(** What a string literal holds between its quotes: bytes, and the 16-bit
    units written [\uXXXX]. *)
Inductive item : Type :=
| Byte (c : ascii)
| Unit16 (u : N).

Inductive scanState : Type :=
| inString
| inStringEsc
| inStringEscU (todo : nat) (acc : N).

Definition escapeOf (c : ascii) : option ascii :=
  if isByte quote c then Some c
  else if isByte backslash c then Some c
  else if isByte 47 c then Some c
  else if isByte 98 c then Some (chr 8)
  else if isByte 102 c then Some (chr 12)
  else if isByte 110 c then Some (chr 10)
  else if isByte 114 c then Some (chr 13)
  else if isByte 116 c then Some (chr 9)
  else None.

Definition consItem (i : item) (r : res (list item * bytes))
  : res (list item * bytes) :=
  '(l, rest) ← r ; Ok (i :: l, rest).

(** The bytes after the opening quote, up to and including the closing
    one. *)
Fixpoint stringBody (st : scanState) (s : bytes) : res (list item * bytes) :=
  match s with
  | EmptyString => Err unexpectedEnd
  | String c r =>
      match st with
      | inString =>
          if isByte quote c then Ok ([], r)
          else if isByte backslash c then stringBody inStringEsc r
          else if N.ltb (code c) 32 then Err invalidCharacter
          else consItem (Byte c) (stringBody inString r)
      | inStringEsc =>
          if isByte 117 c then stringBody (inStringEscU 4 0) r
          else match escapeOf c with
               | Some b => consItem (Byte b) (stringBody inString r)
               | None => Err invalidCharacter
               end
      | inStringEscU todo acc =>
          match hexValue c with
          | None => Err invalidCharacter
          | Some h =>
              let acc' := (16 * acc + h)%N in
              match todo with
              | 1%nat => consItem (Unit16 acc') (stringBody inString r)
              | _ => stringBody (inStringEscU (pred todo) acc') r
              end
          end
      end
  end.

(** utf8.EncodeRune *)
Definition encodeRune (r : N) : bytes :=
  let cont (x : N) := chr (N.lor 128 (N.land x 63)) in
  if N.ltb r 128 then String (chr r) EmptyString
  else if N.ltb r 2048 then
    String (chr (N.lor 192 (N.shiftr r 6))) (String (cont r) EmptyString)
  else if N.ltb r 65536 then
    String (chr (N.lor 224 (N.shiftr r 12)))
      (String (cont (N.shiftr r 6)) (String (cont r) EmptyString))
  else
    String (chr (N.lor 240 (N.shiftr r 18)))
      (String (cont (N.shiftr r 12))
         (String (cont (N.shiftr r 6)) (String (cont r) EmptyString))).

Definition replacementChar : N := 65533.

Definition isSurrogate (u : N) : bool := N.leb 55296 u && N.ltb u 57344.

(** utf16.DecodeRune *)
Definition decodeRune (r1 r2 : N) : N :=
  if N.leb 55296 r1 && N.ltb r1 56320 && N.leb 56320 r2 && N.ltb r2 57344
  then ((r1 - 55296) * 1024 + (r2 - 56320) + 65536)%N
  else replacementChar.

(** utf8.DecodeRune on a leading byte: the length of the sequence it
    starts and the range its second byte must lie in. *)
Definition leading (c : ascii) : option (nat * N * N) :=
  let n := code c in
  if N.leb 194 n && N.leb n 223 then Some (2%nat, 128, 191)%N
  else if N.eqb n 224 then Some (3%nat, 160, 191)%N
  else if N.eqb n 237 then Some (3%nat, 128, 159)%N
  else if N.leb 225 n && N.leb n 239 then Some (3%nat, 128, 191)%N
  else if N.eqb n 240 then Some (4%nat, 144, 191)%N
  else if N.leb 241 n && N.leb n 243 then Some (4%nat, 128, 191)%N
  else if N.eqb n 244 then Some (4%nat, 128, 143)%N
  else None.

Definition within (lo hi : N) (c : ascii) : bool :=
  N.leb lo (code c) && N.leb (code c) hi.

(** unquote. A byte below 128 is kept. A byte from 128 on is kept with the
    bytes that complete its UTF-8 sequence, and becomes U+FFFD when they do
    not follow it. A surrogate half followed by the [\u] unit that
    completes the pair gives one rune, a lone half gives U+FFFD. *)
Fixpoint unquote (l : list item) : string :=
  match l with
  | [] => EmptyString
  | Byte c :: l1 =>
      if N.ltb (code c) 128 then String c (unquote l1)
      else
        let bad := encodeRune replacementChar +:+ unquote l1 in
        match leading c, l1 with
        | Some (size, lo, hi), Byte c1 :: l2 =>
            if within lo hi c1 then
              match size, l2 with
              | 2%nat, _ => String c (String c1 (unquote l2))
              | _, Byte c2 :: l3 =>
                  if within 128 191 c2 then
                    match size, l3 with
                    | 3%nat, _ =>
                        String c (String c1 (String c2 (unquote l3)))
                    | _, Byte c3 :: l4 =>
                        if within 128 191 c3 then
                          String c
                            (String c1 (String c2 (String c3 (unquote l4))))
                        else bad
                    | _, _ => bad
                    end
                  else bad
              | _, _ => bad
              end
            else bad
        | _, _ => bad
        end
  | Unit16 u :: l' =>
      if isSurrogate u then
        match l' with
        | Unit16 u' :: l'' =>
            let dec := decodeRune u u' in
            if N.eqb dec replacementChar
            then encodeRune replacementChar +:+ unquote l'
            else encodeRune dec +:+ unquote l''
        | _ => encodeRune replacementChar +:+ unquote l'
        end
      else encodeRune u +:+ unquote l'
  end.

Definition stringLiteral (s : bytes) : res (string * bytes) :=
  '(l, rest) ← stringBody inString s ; Ok (unquote l, rest).

(** *** Values *)

(** The scanner refuses the [[] or [{] that opens a container inside
    [maxNestingDepth] open ones. *)
Definition maxNestingDepth : N := 10000.

(** [value n d s] reads one value at the front of [s], inside [d] open
    arrays and objects; [elements] and [members] read what follows [[] and
    [{] when the array or object is not empty. [n] bounds the depth of the
    calls. *)
Fixpoint value (n : nat) (d : N) (s : bytes) {struct n} : res (Value * bytes) :=
  match n with
  | O => Err exceededDepth
  | S n =>
      match skipSpace s with
      | EmptyString => Err unexpectedEnd
      | String c r =>
          if isByte 123 c then
            if N.leb maxNestingDepth d then Err exceededDepth
            else
              match skipSpace r with
              | EmptyString => Err unexpectedEnd
              | String c' r' =>
                  if isByte 125 c' then Ok (Object [], r')
                  else '(l, rest) ← members n (N.succ d) r ; Ok (Object l, rest)
              end
          else if isByte 91 c then
            if N.leb maxNestingDepth d then Err exceededDepth
            else
              match skipSpace r with
              | EmptyString => Err unexpectedEnd
              | String c' r' =>
                  if isByte 93 c' then Ok (Array [], r')
                  else '(l, rest) ← elements n (N.succ d) r ; Ok (Array l, rest)
              end
          else if isByte quote c then
            '(str, rest) ← stringLiteral r ; Ok (Str str, rest)
          else if isByte 110 c then
            rest ← literal "ull" r ; Ok (Null, rest)
          else if isByte 116 c then
            rest ← literal "rue" r ; Ok (Bool true, rest)
          else if isByte 102 c then
            rest ← literal "alse" r ; Ok (Bool false, rest)
          else if isByte 45 c || isDigit c then
            '(lit, rest) ← number (String c r) ; Ok (Number lit, rest)
          else Err invalidCharacter
      end
  end
with elements (n : nat) (d : N) (s : bytes) {struct n}
  : res (list (bytes * Value) * bytes) :=
  match n with
  | O => Err exceededDepth
  | S n =>
      let s := skipSpace s in
      '(v, rest) ← value n d s ;
      let node := (consumed s rest, v) in
      match skipSpace rest with
      | EmptyString => Err unexpectedEnd
      | String c r =>
          if isByte 44 c then
            '(l, rest') ← elements n d r ; Ok (node :: l, rest')
          else if isByte 93 c then Ok ([node], r)
          else Err invalidCharacter
      end
  end
with members (n : nat) (d : N) (s : bytes) {struct n}
  : res (list (string * (bytes * Value)) * bytes) :=
  match n with
  | O => Err exceededDepth
  | S n =>
      match skipSpace s with
      | EmptyString => Err unexpectedEnd
      | String q r =>
          if isByte quote q then
            '(key, rest) ← stringLiteral r ;
            match skipSpace rest with
            | EmptyString => Err unexpectedEnd
            | String c r1 =>
                if isByte 58 c then
                  let s1 := skipSpace r1 in
                  '(v, rest1) ← value n d s1 ;
                  let node := (key, (consumed s1 rest1, v)) in
                  match skipSpace rest1 with
                  | EmptyString => Err unexpectedEnd
                  | String c' r2 =>
                      if isByte 44 c' then
                        '(l, rest2) ← members n d r2 ; Ok (node :: l, rest2)
                      else if isByte 125 c' then Ok ([node], r2)
                      else Err invalidCharacter
                  end
                else Err invalidCharacter
            end
          else Err invalidCharacter
      end
  end.

(** checkValid and the scan of the whole text: one value, then only
    space. Every call of [value], [elements] and [members] reads at least
    one byte after at most two calls, so twice the length is depth
    enough. *)
Definition parse (data : bytes) : res Value :=
  '(v, rest) ← value (2 * String.length data + 2) 0 data ;
  match skipSpace rest with
  | EmptyString => Ok v
  | String _ _ => Err invalidCharacter
  end.

(** *** Decoding into Go values

    A decoder stores one parsed value into a Go value. As in
    [decodeState], a mismatch between the JSON kind and the Go type is
    saved ([saveError] keeps the first one) and decoding goes on, while
    the error of an [UnmarshalJSON] method ends it at once. *)

Definition node : Type := bytes * Value.

Definition decoder (A : Type) : Type :=
  A → node → option error → res (A * option error).

Definition saveError (e : error) (saved : option error) : option error :=
  match saved with
  | None => Some e
  | Some _ => saved
  end.

Definition kindOf (v : Value) : string :=
  match v with
  | Null => "null"
  | Bool _ => "bool"
  | Number _ => "number"
  | Str _ => "string"
  | Array _ => "array"
  | Object _ => "object"
  end.

Definition typeError (v : Value) (type : string) : error :=
  UnmarshalTypeError (kindOf v) type.

Definition mismatch {A} (type : string) (old : A) (v : Value)
    (saved : option error) : res (A * option error) :=
  Ok (old, saveError (typeError v type) saved).

Definition decodeString : decoder string :=
  λ old n saved,
    match n.2 with
    | Str s => Ok (s, saved)
    | Null => Ok (old, saved)
    | v => mismatch "string" old v saved
    end.

Definition decodeBool : decoder bool :=
  λ old n saved,
    match n.2 with
    | Bool b => Ok (b, saved)
    | Null => Ok (old, saved)
    | v => mismatch "bool" old v saved
    end.

(** The value of a run of decimal digits, most significant first. *)
Fixpoint decimal (acc : Z) (s : string) : option Z :=
  match s with
  | EmptyString => Some acc
  | String c r =>
      if isDigit c then decimal (10 * acc + Z.of_N (code c - 48)) r
      else None
  end.

(** strconv.ParseInt(s, 10, 64) on a JSON number literal. *)
Definition parseInt (lit : string) : option Z :=
  let '(neg, ds) :=
    match lit with
    | String c r => if isByte 45 c then (true, r) else (false, lit)
    | EmptyString => (false, lit)
    end in
  match ds with
  | EmptyString => None
  | _ =>
      n ← decimal 0 ds;
      let z := if neg then (- n)%Z else n in
      if ((- 2 ^ 63 <=? z) && (z <? 2 ^ 63))%Z then Some z else None
  end.

(** Go's [int], 64 bits wide. *)
Definition decodeInt : decoder Z :=
  λ old n saved,
    match n.2 with
    | Number lit =>
        match parseInt lit with
        | Some z => Ok (z, saved)
        | None =>
            Ok (old, saveError (UnmarshalTypeError ("number " +:+ lit) "int") saved)
        end
    | Null => Ok (old, saved)
    | v => mismatch "int" old v saved
    end.

(** Elements of a JSON array, stored over the elements the slice already
    has and over zero values past its length. *)
Fixpoint decodeElements {A} (elem : decoder A) (zero : A) (old : list A)
    (l : list node) (saved : option error) : res (list A * option error) :=
  match l with
  | [] => Ok ([], saved)
  | n :: l' =>
      '(x, saved1) ← elem (hd zero old) n saved;
      '(xs, saved2) ← decodeElements elem zero (tl old) l' saved1;
      Ok (x :: xs, saved2)
  end.

(** A slice: an array gives a slice that is not nil, also when it has no
    element; [null] gives the nil slice. *)
Definition decodeSlice {A} (type : string) (elem : decoder A) (zero : A)
  : decoder (slice A) :=
  λ old n saved,
    match n.2 with
    | Array l =>
        '(xs, saved1) ← decodeElements elem zero (elemsOf old) l saved;
        Ok (Slice xs, saved1)
    | Null => Ok (nilSlice, saved)
    | v => mismatch type old v saved
    end.

(** Members of a JSON object, stored one after the other in the order of
    the text; [field key] stores one member. *)
Fixpoint decodeMembers {A} (field : string → decoder A) (a : A)
    (l : list (string * node)) (saved : option error)
  : res (A * option error) :=
  match l with
  | [] => Ok (a, saved)
  | (key, n) :: l' =>
      '(a1, saved1) ← field key a n saved;
      decodeMembers field a1 l' saved1
  end.

Definition decodeStruct {A} (type : string) (field : string → decoder A)
  : decoder A :=
  λ old n saved,
    match n.2 with
    | Object l => decodeMembers field old l saved
    | Null => Ok (old, saved)
    | v => mismatch type old v saved
    end.

(** json.RawMessage: [UnmarshalJSON] copies the bytes of the value. *)
Abbreviation RawMessage := bytes.

(** map[string]json.RawMessage: the entries the map has are kept, a
    member replaces the entry of its key. *)
Definition decodeRawMap : decoder (gmap string RawMessage) :=
  decodeStruct "map[string]json.RawMessage"
    (λ key m n saved, Ok (<[key := n.1]> m, saved)).

(** *** Numbers stored in an [interface{}]

    [convertNumber] is [strconv.ParseFloat(s, 64)], which fails when the
    literal rounds to an infinity: when its magnitude is at least
    [2^1024 - 2^970]. *)

Definition exponentOf (s : string) : Z :=
  match s with
  | String _ (String sg r) =>
      if isByte 45 sg then - default 0 (decimal 0 r)
      else if isByte 43 sg then default 0 (decimal 0 r)
      else default 0 (decimal 0 (String sg r))
  | _ => 0
  end%Z.

Definition overflowsFloat64 (lit : string) : bool :=
  let s1 :=
    match lit with
    | String c r => if isByte 45 c then r else lit
    | EmptyString => lit
    end in
  let '(int, s2) := digits s1 in
  let '(frac, s3) :=
    match s2 with
    | String c r => if isByte 46 c then digits r else (EmptyString, s2)
    | EmptyString => (EmptyString, s2)
    end in
  let m := default 0%Z (decimal 0 (int +:+ frac)) in
  let e := (exponentOf s3 - Z.of_nat (String.length frac))%Z in
  let limit := (2 ^ 1024 - 2 ^ 970)%Z in
  if (0 <=? e)%Z then (limit <=? m * 10 ^ e)%Z
  else (limit * 10 ^ (- e) <=? m)%Z.

(** The first number, in the order of the text, that an [interface{}]
    cannot hold. *)
Fixpoint convertNumbers (v : Value) (saved : option error) : option error :=
  match v with
  | Number lit =>
      if overflowsFloat64 lit
      then saveError (UnmarshalTypeError ("number " +:+ lit) "float64") saved
      else saved
  | Array l =>
      (fix elems (l : list node) (saved : option error) : option error :=
         match l with
         | [] => saved
         | (_, x) :: l' => elems l' (convertNumbers x saved)
         end) l saved
  | Object l =>
      (fix membs (l : list (string * node)) (saved : option error)
         : option error :=
         match l with
         | [] => saved
         | (_, (_, x)) :: l' => membs l' (convertNumbers x saved)
         end) l saved
  | _ => saved
  end.

(** []interface{}: the elements are kept as parsed values. *)
Definition decodeInterfaces : decoder (slice Value) :=
  λ old n saved,
    match n.2 with
    | Array l => Ok (Slice l.*2, convertNumbers (Array l) saved)
    | Null => Ok (nilSlice, saved)
    | v => mismatch "[]interface {}" old v saved
    end.

(** *** Names of struct fields

    A key names the field whose tag it equals after folding: ASCII
    letters to upper case, and the two runes that fold to an ASCII
    letter, U+017F to [S] and U+212A to [K]. The tags of this package are
    distinct after folding, so an exact match is a folded match. *)

Definition upper (c : ascii) : ascii :=
  let n := code c in
  if N.leb 97 n && N.leb n 122 then chr (n - 32) else c.

Fixpoint foldName (s : string) : string :=
  match s with
  | EmptyString => EmptyString
  | String c r =>
      match r with
      | String c1 r1 =>
          if isByte 197 c && isByte 191 c1 then String (chr 83) (foldName r1)
          else
            match r1 with
            | String c2 r2 =>
                if isByte 226 c && isByte 132 c1 && isByte 170 c2
                then String (chr 75) (foldName r2)
                else String (upper c) (foldName r)
            | EmptyString => String (upper c) (foldName r)
            end
      | EmptyString => String (upper c) EmptyString
      end
  end.

Definition names (key tag : string) : bool :=
  String.eqb (foldName key) (foldName tag).

(** *** json.Unmarshal

    The whole text is checked first; then the value is stored into [v]
    and the saved error, if any, is returned. The callers in this package
    drop the Go value when an error comes back. *)
Definition Unmarshal {A} (dec : decoder A) (data : bytes) (v : A) : res A :=
  val ← parse data;
  '(v', saved) ← dec v (data, val) None;
  match saved with
  | None => Ok v'
  | Some e => Err e
  end.

End json.

(** ** net/url: form values *)

Module url.

(** url.Values is [map[string][]string]. *)
Abbreviation Values := (gmap string (list string)).

(** [v.Set(key, value)] replaces what the key had ([Set] is taken). *)
Definition Set_ (key value : string) (v : Values) : Values :=
  <[key := [value]]> v.

(** [v.Get(key)]: the first value of the key, or the empty string. *)
Definition Get (key : string) (v : Values) : string :=
  match v !! key with
  | Some (x :: _) => x
  | _ => EmptyString
  end.

Definition hexDigit (n : N) : ascii :=
  if N.ltb n 10 then json.chr (48 + n) else json.chr (55 + n).

Definition unreserved (c : ascii) : bool :=
  let n := json.code c in
  (N.leb 97 n && N.leb n 122) || (N.leb 65 n && N.leb n 90)
  || (N.leb 48 n && N.leb n 57)
  || json.isByte 45 c || json.isByte 95 c || json.isByte 46 c
  || json.isByte 126 c.

Fixpoint QueryEscape (s : string) : string :=
  match s with
  | EmptyString => EmptyString
  | String c r =>
      if unreserved c then String c (QueryEscape r)
      else if json.isByte 32 c then String (json.chr 43) (QueryEscape r)
      else
        let n := json.code c in
        String (json.chr 37)
          (String (hexDigit (N.shiftr n 4))
             (String (hexDigit (N.land n 15)) (QueryEscape r)))
  end.

Definition byteOrder (a b : string) : Prop := String.leb a b = true.

#[global] Instance byteOrder_dec a b : Decision (byteOrder a b).
Proof. unfold byteOrder. apply _. Defined.

(** [v.Encode()]: [key=value] pairs joined by [&], keys in sorted order. *)
Definition Encode (v : Values) : string :=
  let keys := merge_sort byteOrder (map fst (map_to_list v)) in
  foldl
    (λ buf k,
       foldl
         (λ buf x,
            (if String.eqb buf EmptyString then buf else buf +:+ "&")
            +:+ QueryEscape k +:+ "=" +:+ QueryEscape x)
         buf (default [] (v !! k)))
    EmptyString keys.

End url.

(** ** message.go *)

(** The struct [Bot] is declared in another file of the package; these are
    its fields as the package's tests fill them, without the client. The
    field [Email] is [BEmail] here, next to [User]'s [Email]; in the same way
    [DisplayRecipient.Topic] is [DTopic] and the fields of [EventMessage]
    whose names are taken are [EContent], [EDisplayRecipient], [EID] and
    [EType]. *)
Record Bot : Type := mkBot {
  BEmail : string;
  APIKey : string;
  Streams : list string
}.

(** *** Decoding the structs *)

Definition field {A B} (get : A → B) (set : B → A → A) (dec : json.decoder B)
  : json.decoder A :=
  λ a n saved, '(x, saved1) ← dec (get a) n saved; Ok (set x a, saved1).

Definition userField (key : string) : json.decoder User :=
  if json.names key "domain" then field Domain setDomain json.decodeString
  else if json.names key "email" then field Email setEmail json.decodeString
  else if json.names key "full_name" then field FullName setFullName json.decodeString
  else if json.names key "id" then field ID setID json.decodeInt
  else if json.names key "is_mirror_dummy" then
    field IsMirrorDummy setIsMirrorDummy json.decodeBool
  else if json.names key "short_name" then
    field ShortName setShortName json.decodeString
  else λ u _ saved, Ok (u, saved).

Definition decodeUser : json.decoder User :=
  json.decodeStruct "gozulipbot.User" userField.

Definition decodeUsers : json.decoder (slice User) :=
  json.decodeSlice "[]gozulipbot.User" decodeUser zeroUser.

(** func (d *DisplayRecipient) UnmarshalJSON(b []byte) (err error):
    the receiver after the call, and [err]. *)
Definition UnmarshalJSON (d : DisplayRecipient) (b : bytes)
  : DisplayRecipient * option error :=
  let topic := EmptyString in
  let users := Slice [zeroUser] in
  match json.Unmarshal json.decodeString b topic with
  | Ok topic => (setDTopic topic d, None)
  | Err _ =>
      match json.Unmarshal decodeUsers b users with
      | Ok users => (setUsers users d, None)
      | Err err => (d, Some err)
      end
  end.

(** A field whose type has an [UnmarshalJSON] method receives the bytes of
    the member, whatever its kind, and its error ends the decoding. *)
Definition decodeDisplayRecipient : json.decoder DisplayRecipient :=
  λ d n saved,
    match UnmarshalJSON d n.1 with
    | (d', None) => Ok (d', saved)
    | (_, Some err) => Err err
    end.

Definition eventMessageField (key : string) : json.decoder EventMessage :=
  if json.names key "avatar_url" then field AvatarURL setAvatarURL json.decodeString
  else if json.names key "client" then field Client setClient json.decodeString
  else if json.names key "content" then field EContent setEContent json.decodeString
  else if json.names key "content_type" then
    field ContentType setContentType json.decodeString
  else if json.names key "display_recipient" then
    field EDisplayRecipient setEDisplayRecipient decodeDisplayRecipient
  else if json.names key "gravatar_hash" then
    field GravatarHash setGravatarHash json.decodeString
  else if json.names key "id" then field EID setEID json.decodeInt
  else if json.names key "recipient_id" then
    field RecipientID setRecipientID json.decodeInt
  else if json.names key "sender_domain" then
    field SenderDomain setSenderDomain json.decodeString
  else if json.names key "sender_email" then
    field SenderEmail setSenderEmail json.decodeString
  else if json.names key "sender_full_name" then
    field SenderFullName setSenderFullName json.decodeString
  else if json.names key "sender_id" then field SenderID setSenderID json.decodeInt
  else if json.names key "sender_short_name" then
    field SenderShortName setSenderShortName json.decodeString
  else if json.names key "subject" then field Subject setSubject json.decodeString
  else if json.names key "subject_links" then
    field SubjectLinks setSubjectLinks json.decodeInterfaces
  else if json.names key "timestamp" then field Timestamp setTimestamp json.decodeInt
  else if json.names key "type" then field EType setEType json.decodeString
  else λ e _ saved, Ok (e, saved).

Definition decodeEventMessage : json.decoder EventMessage :=
  json.decodeStruct "gozulipbot.EventMessage" eventMessageField.

Definition decodeEvents
  : json.decoder (slice (gmap string json.RawMessage)) :=
  json.decodeSlice "[]map[string]json.RawMessage" json.decodeRawMap ∅.

(** [m[key]] on a map of raw messages: the nil message when the key is
    absent. *)
Definition index (m : gmap string json.RawMessage) (key : string)
  : json.RawMessage :=
  default EmptyString (m !! key).

(** *** Sending

    A [*http.Request] and a [*http.Response] are opaque to the package, and
    so is the client, of which only [Do] is called. [constructRequest] is a
    method of [Bot] declared in another file. The methods of [Bot] carry the
    prefix [Bot_], since [Message] is also the name of the struct. *)

Section Sending.

Context {Request Response Client : Type}.

(** func (b *Bot) constructRequest(method, endpoint, body string)
    ( *http.Request, error) *)
Variable constructRequest : Bot → string → string → string → res Request.

(** [b.client.Do(req)]: what it returns and the client afterwards. *)
Variable Do : Request → Client → (option Response * option error) * Client.

(** The client, and the requests handed to [Do] so far. *)
Record World : Type := mkWorld {
  client : Client;
  sent : list Request
}.

(** The pair [( *http.Response, error)]; [None] is [nil]. *)
Definition reply : Type := option Response * option error.

Definition clientDo (req : Request) (w : World) : reply * World :=
  let '(r, c) := Do req (client w) in
  (r, mkWorld c (sent w ++ [req])).

(** [return nil, err] *)
Definition failed (err : error) (w : World) : reply * World :=
  ((None, Some err), w).

(** The loop [for i, e := range m.Emails] of constructMessageRequest,
    from index [i] on. *)
Fixpoint appendEmails (le i : nat) (emails : list string) (to : string)
  : string :=
  match emails with
  | [] => to
  | e :: rest =>
      let to := to +:+ e in
      let to := if decide (i ≠ le - 1) then to +:+ ", " else to in
      appendEmails le (S i) rest to
  end.

(** The form values that constructMessageRequest builds. *)
Definition messageValues (m : Message) : url.Values :=
  let to := Stream m in
  let mtype := "stream" in
  let le := length (Emails m) in
  let mtype := if decide (le ≠ 0) then "private" else mtype in
  let to := if decide (le = 1) then hd EmptyString (Emails m) else to in
  let to := if decide (1 < le) then appendEmails le 0 (Emails m) to else to in
  let values : url.Values := ∅ in
  let values := url.Set_ "type" mtype values in
  let values := url.Set_ "to" to values in
  let values := url.Set_ "content" (Content m) values in
  if String.eqb mtype "stream" then url.Set_ "subject" (Topic m) values
  else values.

(** func (b *Bot) constructMessageRequest(m Message) ( *http.Request, error) *)
Definition Bot_constructMessageRequest (b : Bot) (m : Message) : res Request :=
  constructRequest b "POST" "messages" (url.Encode (messageValues m)).

(** func (b *Bot) PrivateMessage(m Message) ( *http.Response, error) *)
Definition Bot_PrivateMessage (b : Bot) (m : Message) (w : World)
  : reply * World :=
  if decide (length (Emails m) = 0) then
    failed (errors_New "there must be at least one recipient") w
  else
    match Bot_constructMessageRequest b m with
    | Err err => failed err w
    | Ok req => clientDo req w
    end.

(** func (b *Bot) Message(m Message) ( *http.Response, error) *)
Definition Bot_Message (b : Bot) (m : Message) (w : World) : reply * World :=
  if decide (Content m = EmptyString) then
    failed (errors_New "content cannot be empty") w
  else if decide (length (Emails m) ≠ 0) then
    Bot_PrivateMessage b m w
  else if decide (Stream m = EmptyString) then
    failed (errors_New "stream cannot be empty") w
  else if decide (Topic m = EmptyString) then
    failed (errors_New "topic cannot be empty") w
  else
    match Bot_constructMessageRequest b m with
    | Err err => failed err w
    | Ok req => clientDo req w
    end.

(** func (b *Bot) privateResponseList(e EventMessage) ([]string, error) *)
Definition Bot_privateResponseList (b : Bot) (e : EventMessage)
  : res (list string) :=
  let out :=
    foldl
      (λ out u, if decide (Email u ≠ BEmail b) then out ++ [Email u] else out)
      [] (elemsOf (Users (EDisplayRecipient e))) in
  if decide (length out = 0) then
    Err (fmt_Errorf "EventMessage had no Users within the DisplayRecipient" [])
  else Ok out.

Definition notUnderstood : string :=
  "EventMessage is not understood: %v" +:+ String (json.chr 10) EmptyString.

(** func (b *Bot) Respond(e EventMessage, response string)
    ( *http.Response, error) *)
Definition Bot_Respond (b : Bot) (e : EventMessage) (response : string)
    (w : World) : reply * World :=
  if decide (response = EmptyString) then
    failed (errors_New "Message response cannot be blank") w
  else
    let m := mkMessage (DTopic (EDisplayRecipient e)) (Subject e) [] response in
    if decide (Topic m ≠ EmptyString) then Bot_Message b m w
    else if decide (Stream m = EmptyString) then
      match Bot_privateResponseList b e with
      | Err err => failed err w
      | Ok emails =>
          let m := setEmails emails m in
          Bot_Message b m w
      end
    else failed (fmt_Errorf notUnderstood [e]) w.

(** Two parts of the functions above, named for the statements: what
    both send paths do once their checks are passed, and the
    private-reply path of Respond. *)
Definition construct_and_Do (b : Bot) (m : Message) (w : World)
  : reply * World :=
  match Bot_constructMessageRequest b m with
  | Err err => failed err w
  | Ok req => clientDo req w
  end.

Definition privateReply (b : Bot) (e : EventMessage) (response : string)
    (w : World) : reply * World :=
  match Bot_privateResponseList b e with
  | Err err => failed err w
  | Ok emails =>
      Bot_Message b (mkMessage EmptyString EmptyString emails response) w
  end.

End Sending.

Arguments World : clear implicits.
Arguments reply : clear implicits.

(** *** Parsing events *)

(** The loop [for _, event := range events] of ParseEventMessages. *)
Fixpoint parseEvents (events : list (gmap string json.RawMessage))
    (messages : list EventMessage) : res (list EventMessage) :=
  match events with
  | [] => Ok messages
  | event :: rest =>
      msg ← json.Unmarshal decodeEventMessage (index event "message")
              zeroEventMessage;
      parseEvents rest (messages ++ [msg])
  end.

(** func ParseEventMessages(rawEventResponse []byte) ([]EventMessage, error) *)
Definition ParseEventMessages (rawEventResponse : bytes)
  : res (list EventMessage) :=
  rawResponse ← json.Unmarshal json.decodeRawMap rawEventResponse ∅;
  events ← json.Unmarshal decodeEvents (index rawResponse "events") (Slice []);
  parseEvents (elemsOf events) [].

(** ** Definitions used by the statements *)

(** strings.Join: the elements with [sep] between them. *)
Fixpoint Join (elems : list string) (sep : string) : string :=
  match elems with
  | [] => EmptyString
  | [e] => e
  | e :: rest => e +:+ sep +:+ Join rest sep
  end.

(** The users of an event other than the bot, in their order. *)
Definition otherEmails (b : Bot) (e : EventMessage) : list string :=
  Email <$> filter (λ u, Email u ≠ BEmail b)
              (elemsOf (Users (EDisplayRecipient e))).

(** JSON texts are written below with ['] where the text has a double
    quote. *)
Fixpoint dq (s : string) : bytes :=
  match s with
  | EmptyString => EmptyString
  | String c r =>
      String (if json.isByte 39 c then json.chr 34 else c) (dq r)
  end.

(** *** The client of the package's tests

    [testClient.Do] keeps the request and returns the response it was set
    up with and no error. Its request records what constructRequest was
    called with. *)

Record testRequest : Type := mkTestRequest {
  method : string;
  endpoint : string;
  body : string
}.

Record testClient : Type := mkTestClient {
  tcRequest : option testRequest;
  tcResponse : option string
}.

Definition testClient_Do (r : testRequest) (t : testClient)
  : (option string * option error) * testClient :=
  ((tcResponse t, None), mkTestClient (Some r) (tcResponse t)).

Definition testConstructRequest (b : Bot) (method endpoint body : string)
  : res testRequest :=
  Ok (mkTestRequest method endpoint body).

(** getTestBot *)
Definition testBot : Bot :=
  mkBot "testbot@example.com" "apikey" ["stream a"; "test bots"].

Definition testWorld : World testRequest testClient :=
  mkWorld (mkTestClient None (Some "200 OK")) [].

(** The package's functions with the test client. *)
Definition testMessage := Bot_Message testConstructRequest testClient_Do.
Definition testPrivateMessage :=
  Bot_PrivateMessage testConstructRequest testClient_Do.
Definition testRespond := Bot_Respond testConstructRequest testClient_Do.

(** The world after the test client was handed the request with [body]. *)
Definition testSent (body : string) : World testRequest testClient :=
  let req := mkTestRequest "POST" "messages" body in
  mkWorld (mkTestClient (Some req) (Some "200 OK")) [req].

(** Events: one of a stream, one of a private conversation of the bot and
    two others, one with only the bot, one with a stream name and no
    subject. *)
Definition userOf (email : string) : User := setEmail email zeroUser.

Definition streamEvent : EventMessage :=
  setSubject "t1"
    (setEDisplayRecipient (mkDisplayRecipient nilSlice "general")
       zeroEventMessage).

Definition privateEvent : EventMessage :=
  setEDisplayRecipient
    (mkDisplayRecipient
       (Slice
          [userOf "a@x.com"; userOf "testbot@example.com"; userOf "b@x.com"])
       EmptyString)
    zeroEventMessage.

Definition lonelyEvent : EventMessage :=
  setEDisplayRecipient
    (mkDisplayRecipient (Slice [userOf "testbot@example.com"]) EmptyString)
    zeroEventMessage.

(** An event with a Subject and no stream name. *)
Definition subjectOnlyEvent : EventMessage :=
  setSubject "t1" zeroEventMessage.

(** A conversation in which one other user occurs twice. *)
Definition chattyEvent : EventMessage :=
  setEDisplayRecipient
    (mkDisplayRecipient
       (Slice
          [userOf "a@x.com"; userOf "testbot@example.com"; userOf "b@x.com";
           userOf "a@x.com"])
       EmptyString)
    zeroEventMessage.

Definition oddEvent : EventMessage :=
  setEDisplayRecipient (mkDisplayRecipient nilSlice "general")
    zeroEventMessage.

(** The message of C1. *)
Definition twoEmailsOnStream : Message :=
  mkMessage "general" "t1" ["a@x.com"; "b@x.com"] "hi".

(** An event whose "message" decodes to [msg]. *)
Definition decodesTo (event : gmap string json.RawMessage) (msg : EventMessage)
  : Prop :=
  json.Unmarshal decodeEventMessage (index event "message") zeroEventMessage
  = Ok msg.

(** A poll response of three events, the second with a fractional id. *)
Definition badSecondEvent : bytes :=
  dq "{'events':[{'message':{'content':'hi'}},{'message':{'id':1.5}},{'message':{}}]}".

(** The bodies of the requests: what [url.Encode] gives for the values of
    a stream message and of a private message. *)
Definition streamBody (stream topic content : string) : string :=
  "content=" +:+ url.QueryEscape content +:+ "&subject="
  +:+ url.QueryEscape topic +:+ "&to=" +:+ url.QueryEscape stream
  +:+ "&type=stream".

Definition privateBody (to content : string) : string :=
  "content=" +:+ url.QueryEscape content +:+ "&to=" +:+ url.QueryEscape to
  +:+ "&type=private".

Section Posting.

Context {Request Response Client : Type}.
Variable constructRequest : Bot → string → string → string → res Request.
Variable Do : Request → Client → (option Response * option error) * Client.

(** [constructRequest("POST", "messages", body)] followed by [Do], as both
    send paths end. *)
Definition postMessages (b : Bot) (body : string) (w : World Request Client)
  : reply Response * World Request Client :=
  match constructRequest b "POST" "messages" body with
  | Err err => failed err w
  | Ok req => clientDo Do req w
  end.

(** The same, written out: the error of constructRequest with the world
    as it was, or what [Do] returns for the request, the client as [Do]
    leaves it and the request added to those handed to [Do]. *)
Definition posted (b : Bot) (body : string) (w : World Request Client)
  : reply Response * World Request Client :=
  match constructRequest b "POST" "messages" body with
  | Err err => ((None, Some err), w)
  | Ok req =>
      ((Do req (client w)).1, mkWorld (Do req (client w)).2 (sent w ++ [req]))
  end.

End Posting.

(** The JSON kinds that are neither a string, an array nor [null]. *)
Definition otherKind (v : Value) : Prop :=
  match v with
  | Bool _ | Number _ | Object _ => True
  | _ => False
  end.

(** A poll response of one message whose object has "display_recipient"
    twice, first as a string and then as a list of users. *)
Definition twiceDisplayRecipient : bytes :=
  dq "{'events':[{'message':{'display_recipient':'general','display_recipient':[{'email':'a@x.com'}]}}]}".

(** A poll response whose only event is a heartbeat, without "message". *)
Definition heartbeatOnly : bytes :=
  dq "{'events':[{'type':'heartbeat','id':0}],'result':'success'}".

(** A poll response of two messages, of a stream and of a conversation. *)
Definition twoEvents : bytes :=
  dq "{'events':[{'message':{'subject':'t1','display_recipient':'general'}},{'message':{'display_recipient':[{'email':'a@x.com'}]}}]}".

(** A decoder that never ends the decoding and keeps an error that is
    already saved. *)
Definition nonAborting {A} (dec : json.decoder A) : Prop :=
  ∀ a n saved,
    ∃ a' saved',
      dec a n saved = Ok (a', saved')
      ∧ ∀ err, saved = Some err → saved' = Some err.

(** The JSON kinds other than an object and [null]: those a struct or a map
    cannot be decoded from. *)
Definition notObjectOrNull (v : Value) : Prop :=
  match v with
  | Null | Object _ => False
  | _ => True
  end.

(** ** Properties *)

Lemma append_assoc (a b c : string) : (a +:+ b) +:+ c = a +:+ b +:+ c.
Proof.
  induction a as [|x a IH]; [reflexivity |].
  change (String x ((a +:+ b) +:+ c) = String x (a +:+ b +:+ c)).
  now f_equal.
Qed.

(** *** Request construction *)

Lemma appendEmails_Join (le i : nat) (emails : list string) (to : string) :
  i + length emails = le →
  emails ≠ [] →
  appendEmails le i emails to = to +:+ Join emails ", ".
Proof.
  revert i to. induction emails as [|e rest IH]; intros i to Hle Hne.
  - congruence.
  - cbn [length] in Hle. cbn [appendEmails].
    destruct rest as [|e' rest'].
    + cbn [length] in Hle. case_decide as Hi; [lia | reflexivity].
    + cbn [length] in Hle. case_decide as Hi; [| lia].
      rewrite IH; [| cbn [length]; lia | discriminate].
      change (Join (e :: e' :: rest') ", ")
        with (e +:+ ", " +:+ Join (e' :: rest') ", ").
      now rewrite !append_assoc.
Qed.

Lemma messageValues_private (m : Message) :
  Emails m ≠ [] →
  messageValues m =
    url.Set_ "content" (Content m)
      (url.Set_ "to"
         (match Emails m with
          | [e] => e
          | _ => Stream m +:+ Join (Emails m) ", "
          end)
         (url.Set_ "type" "private" ∅)).
Proof.
  intros Hne. unfold messageValues.
  destruct (Emails m) as [|e [|e' rest]] eqn:HE; [congruence | |].
  - reflexivity.
  - cbn [length]. repeat case_decide; try lia.
    rewrite appendEmails_Join by (simpl; first [lia | discriminate]).
    reflexivity.
Qed.

Lemma messageValues_stream (m : Message) :
  Emails m = [] →
  messageValues m =
    url.Set_ "subject" (Topic m)
      (url.Set_ "content" (Content m)
         (url.Set_ "to" (Stream m) (url.Set_ "type" "stream" ∅))).
Proof. intros HE. unfold messageValues. rewrite HE. reflexivity. Qed.

Lemma Get_Set_eq (key value : string) (v : url.Values) :
  url.Get key (url.Set_ key value v) = value.
Proof. unfold url.Get, url.Set_. now rewrite lookup_insert_eq. Qed.

Lemma Get_Set_ne (key key' value : string) (v : url.Values) :
  key ≠ key' → url.Get key' (url.Set_ key value v) = url.Get key' v.
Proof. intros. unfold url.Get, url.Set_. now rewrite lookup_insert_ne. Qed.

(** With two or more emails the field [to] is the stream name followed by
    the joined emails. *)
Lemma to_many_emails (m : Message) :
  1 < length (Emails m) →
  url.Get "to" (messageValues m) = Stream m +:+ Join (Emails m) ", ".
Proof.
  intros Hlen. rewrite messageValues_private.
  - rewrite Get_Set_ne by discriminate. rewrite Get_Set_eq.
    destruct (Emails m) as [|e [|e' rest]]; simpl in Hlen; try lia.
    reflexivity.
  - intros HE. rewrite HE in Hlen. simpl in Hlen. lia.
Qed.

(** C1, on the code: for the message with Stream "general", Topic "t1",
    Emails a@x.com and b@x.com and Content "hi", the form field [to] is
    "generala@x.com, b@x.com": the stream name comes in front of the joined
    emails, so the field is not the joined emails. *)
Theorem to_two_emails_with_stream :
  Join (Emails twoEmailsOnStream) ", " = "a@x.com, b@x.com"
  ∧ url.Get "to" (messageValues twoEmailsOnStream) = "generala@x.com, b@x.com"
  ∧ url.Get "to" (messageValues twoEmailsOnStream)
    ≠ Join (Emails twoEmailsOnStream) ", ".
Proof. repeat split. intros H. vm_compute in H. discriminate. Qed.

(** Without a stream name the field is the joined emails. *)
Lemma to_many_emails_no_stream (m : Message) :
  1 < length (Emails m) →
  Stream m = EmptyString →
  url.Get "to" (messageValues m) = Join (Emails m) ", ".
Proof. intros Hlen HS. rewrite to_many_emails by exact Hlen. now rewrite HS. Qed.

(** *** Sending and replying *)

Lemma privateResponseList_foldl (me : string) (users : list User)
    (out : list string) :
  foldl (λ out u, if decide (Email u ≠ me) then out ++ [Email u] else out)
    out users
  = out ++ (Email <$> filter (λ u, Email u ≠ me) users).
Proof.
  revert out. induction users as [|u users IH]; intros out; simpl.
  - now rewrite app_nil_r.
  - rewrite IH. rewrite filter_cons. case_decide; simpl.
    + now rewrite <- app_assoc.
    + reflexivity.
Qed.

Lemma privateResponseList_spec (b : Bot) (e : EventMessage) :
  Bot_privateResponseList b e =
    match otherEmails b e with
    | [] => Err (fmt_Errorf
                   "EventMessage had no Users within the DisplayRecipient" [])
    | emails => Ok emails
    end.
Proof.
  unfold Bot_privateResponseList, otherEmails.
  rewrite privateResponseList_foldl. simpl.
  destruct (Email <$> filter _ _); reflexivity.
Qed.

Section SendingProperties.

Context {Request Response Client : Type}.
Variable constructRequest : Bot → string → string → string → res Request.
Variable Do : Request → Client → (option Response * option error) * Client.

#[local] Abbreviation Message_ := (Bot_Message constructRequest Do).
#[local] Abbreviation PrivateMessage_ :=
  (Bot_PrivateMessage constructRequest Do).
#[local] Abbreviation Respond_ := (Bot_Respond constructRequest Do).
#[local] Abbreviation constructMessageRequest_ :=
  (Bot_constructMessageRequest constructRequest).
#[local] Abbreviation construct_and_Do_ :=
  (construct_and_Do constructRequest Do).
#[local] Abbreviation privateReply_ := (privateReply constructRequest Do).
#[local] Abbreviation World_ := (World Request Client).

Lemma clientDo_sent (req : Request) (w : World_) :
  sent (clientDo Do req w).2 = sent w ++ [req].
Proof. unfold clientDo. destruct (Do req (client w)). reflexivity. Qed.

Lemma construct_and_Do_sends (b : Bot) (m : Message) (w : World_)
    (req : Request) :
  constructMessageRequest_ b m = Ok req →
  construct_and_Do_ b m w = clientDo Do req w
  ∧ sent (construct_and_Do_ b m w).2 = sent w ++ [req].
Proof.
  intros Hreq. unfold construct_and_Do. rewrite Hreq.
  split; [reflexivity | apply clientDo_sent].
Qed.

Lemma PrivateMessage_nonempty (b : Bot) (m : Message) (w : World_) :
  Emails m ≠ [] →
  PrivateMessage_ b m w = construct_and_Do_ b m w.
Proof.
  intros Hne. unfold Bot_PrivateMessage, construct_and_Do.
  case_decide as Hlen; [| reflexivity].
  destruct (Emails m); [congruence | discriminate].
Qed.

Lemma Message_private (b : Bot) (m : Message) (w : World_) :
  Emails m ≠ [] →
  Content m ≠ EmptyString →
  Message_ b m w = PrivateMessage_ b m w.
Proof.
  intros HE HC. unfold Bot_Message. rewrite decide_False by exact HC.
  rewrite decide_True; [reflexivity |].
  destruct (Emails m); [congruence | discriminate].
Qed.

Lemma Respond_private_path (b : Bot) (e : EventMessage) (response : string)
    (w : World_) :
  response ≠ EmptyString →
  Subject e = EmptyString →
  DTopic (EDisplayRecipient e) = EmptyString →
  Respond_ b e response w = privateReply_ b e response w.
Proof.
  intros Hr Hs Ht. unfold Bot_Respond, privateReply, setEmails.
  cbn [Stream Topic Content].
  rewrite decide_False by exact Hr.
  rewrite decide_False by (intros H; now apply H).
  rewrite decide_True by exact Ht. now rewrite Hs, Ht.
Qed.

(** C7: a message whose Content is empty is refused by Message with the
    error "content cannot be empty", and the world is left as it was: the
    client is unchanged and no request was handed to Do. *)
Theorem Message_empty_content (b : Bot) (m : Message) (w : World_) :
  Content m = EmptyString →
  Message_ b m w = ((None, Some (errors_New "content cannot be empty")), w)
  ∧ sent (Message_ b m w).2 = sent w
  ∧ client (Message_ b m w).2 = client w.
Proof.
  intros HC. unfold Bot_Message. rewrite decide_True by exact HC.
  repeat split.
Qed.

(** C8: a message with at least one email and a non-empty Content is
    handled by PrivateMessage, whatever its Stream and Topic are; the
    request is constructed and handed to Do without a check of Stream or
    Topic, so when constructRequest gives a request, that request is
    sent. *)
Theorem Message_routes_private (b : Bot) (m : Message) (w : World_) :
  Emails m ≠ [] →
  Content m ≠ EmptyString →
  Message_ b m w = PrivateMessage_ b m w
  ∧ PrivateMessage_ b m w = construct_and_Do_ b m w
  ∧ ∀ req, constructMessageRequest_ b m = Ok req →
      Message_ b m w = clientDo Do req w
      ∧ sent (Message_ b m w).2 = sent w ++ [req].
Proof.
  intros HE HC.
  pose proof (Message_private b m w HE HC) as Hm.
  split; [exact Hm |]. split; [now apply PrivateMessage_nonempty |].
  intros req Hreq. rewrite Hm, PrivateMessage_nonempty by exact HE.
  now apply construct_and_Do_sends.
Qed.

(** C10: PrivateMessage does not look at Content. Called with at least
    one email and an empty Content it constructs the request, with an
    empty [content] field, and when constructRequest gives a request it
    hands it to Do. *)
Theorem PrivateMessage_empty_content (b : Bot) (m : Message) (w : World_) :
  Emails m ≠ [] →
  Content m = EmptyString →
  PrivateMessage_ b m w = construct_and_Do_ b m w
  ∧ url.Get "content" (messageValues m) = EmptyString
  ∧ ∀ req, constructMessageRequest_ b m = Ok req →
      PrivateMessage_ b m w = clientDo Do req w
      ∧ sent (PrivateMessage_ b m w).2 = sent w ++ [req].
Proof.
  intros HE HC. split; [now apply PrivateMessage_nonempty |]. split.
  - rewrite messageValues_private by exact HE.
    rewrite Get_Set_eq. exact HC.
  - intros req Hreq. rewrite PrivateMessage_nonempty by exact HE.
    now apply construct_and_Do_sends.
Qed.

(** C4: on the private-reply path the recipients are the emails of the
    users of DisplayRecipient.Users other than the bot's own, in their
    order. With no such user Respond fails with the "no Users" error and
    the world is left as it was. Otherwise Respond is PrivateMessage on
    the message with exactly those Emails and the reply text as Content:
    the request has type "private", [to] the joined emails and [content]
    the reply text, and is handed to Do when constructRequest gives it. *)
Theorem Respond_private_reply (b : Bot) (e : EventMessage)
    (response : string) (w : World_) :
  response ≠ EmptyString →
  Subject e = EmptyString →
  DTopic (EDisplayRecipient e) = EmptyString →
  let emails := otherEmails b e in
  let m := mkMessage EmptyString EmptyString emails response in
  (emails = [] →
     Respond_ b e response w
     = ((None,
         Some (fmt_Errorf
                 "EventMessage had no Users within the DisplayRecipient" [])),
        w))
  ∧ (emails ≠ [] →
       Respond_ b e response w = PrivateMessage_ b m w
       ∧ PrivateMessage_ b m w = construct_and_Do_ b m w
       ∧ messageValues m
         = url.Set_ "content" response
             (url.Set_ "to" (Join emails ", ") (url.Set_ "type" "private" ∅))
       ∧ ∀ req, constructMessageRequest_ b m = Ok req →
           Respond_ b e response w = clientDo Do req w
           ∧ sent (Respond_ b e response w).2 = sent w ++ [req]).
Proof.
  intros Hr Hs Ht emails m.
  rewrite (Respond_private_path b e response w Hr Hs Ht).
  unfold privateReply. rewrite privateResponseList_spec. fold emails. split.
  - intros HE. rewrite HE. reflexivity.
  - intros HE. destruct emails as [|x xs] eqn:Hem; [congruence |].
    fold m.
    assert (HEm : Emails m ≠ []) by discriminate.
    pose proof (Message_private b m w HEm Hr) as Hm.
    pose proof (PrivateMessage_nonempty b m w HEm) as Hpm.
    split; [exact Hm |]. split; [exact Hpm |]. split.
    + rewrite messageValues_private by exact HEm.
      cbn [Emails Content Stream m]. destruct xs; reflexivity.
    + intros req Hreq. rewrite Hm, Hpm.
      now apply construct_and_Do_sends.
Qed.

End SendingProperties.

(** *** Decoding *)

Lemma Unmarshal_parse_error {A} (dec : json.decoder A) (data : bytes) (v : A)
    (err : error) :
  json.parse data = Err err → json.Unmarshal dec data v = Err err.
Proof. intros H. unfold json.Unmarshal. now rewrite H. Qed.

Lemma Unmarshal_string_Str (b : bytes) (s old : string) :
  json.parse b = Ok (Str s) → json.Unmarshal json.decodeString b old = Ok s.
Proof. intros H. unfold json.Unmarshal. now rewrite H. Qed.

Lemma Unmarshal_string_Array (b : bytes) (l : list json.node) (old : string) :
  json.parse b = Ok (Array l) →
  json.Unmarshal json.decodeString b old
  = Err (UnmarshalTypeError "array" "string").
Proof. intros H. unfold json.Unmarshal. now rewrite H. Qed.

(** The one zero element of [make([]User, 1)] is what a fresh element is. *)
Lemma Unmarshal_users_make (b : bytes) :
  json.Unmarshal decodeUsers b (Slice [zeroUser])
  = json.Unmarshal decodeUsers b nilSlice.
Proof.
  unfold json.Unmarshal. destruct (json.parse b) as [val|err]; [| reflexivity].
  destruct val as [| | | |l|]; try reflexivity.
  destruct l; reflexivity.
Qed.

Lemma Unmarshal_users_empty (b : bytes) (old : slice User) :
  json.parse b = Ok (Array []) →
  json.Unmarshal decodeUsers b old = Ok (Slice []).
Proof. intros H. unfold json.Unmarshal. now rewrite H. Qed.

Lemma saveError_keeps (e : error) (saved : option error) (err : error) :
  saved = Some err → json.saveError e saved = Some err.
Proof. now intros ->. Qed.

Lemma saveError_Some (e : error) (saved : option error) :
  is_Some (json.saveError e saved).
Proof. destruct saved; simpl; eauto. Qed.

Lemma decodeString_nonAborting : nonAborting json.decodeString.
Proof.
  intros a [raw v] saved. unfold json.decodeString, json.mismatch.
  destruct v; simpl; eauto using saveError_keeps.
Qed.

Lemma decodeBool_nonAborting : nonAborting json.decodeBool.
Proof.
  intros a [raw v] saved. unfold json.decodeBool, json.mismatch.
  destruct v; simpl; eauto using saveError_keeps.
Qed.

Lemma decodeInt_nonAborting : nonAborting json.decodeInt.
Proof.
  intros a [raw v] saved. unfold json.decodeInt, json.mismatch.
  destruct v; simpl; eauto using saveError_keeps.
  destruct (json.parseInt _); eauto using saveError_keeps.
Qed.

Lemma field_nonAborting {A B} (get : A → B) (set : B → A → A)
    (dec : json.decoder B) :
  nonAborting dec → nonAborting (field get set dec).
Proof.
  intros Hdec a n saved. unfold field.
  destruct (Hdec (get a) n saved) as (x & saved' & -> & Hk).
  simpl. eauto.
Qed.

Lemma userField_nonAborting (key : string) : nonAborting (userField key).
Proof.
  unfold userField.
  repeat case_match;
    first [ apply field_nonAborting;
            first [ apply decodeString_nonAborting
                  | apply decodeInt_nonAborting
                  | apply decodeBool_nonAborting ]
          | intros a n saved; eauto ].
Qed.

Lemma decodeMembers_nonAborting {A} (fld : string → json.decoder A)
    (a : A) (l : list (string * json.node)) (saved : option error) :
  (∀ key, nonAborting (fld key)) →
  ∃ a' saved',
    json.decodeMembers fld a l saved = Ok (a', saved')
    ∧ ∀ err, saved = Some err → saved' = Some err.
Proof.
  intros Hf. revert a saved. induction l as [|[key n] l IH]; intros a saved.
  - simpl. eauto.
  - simpl. destruct (Hf key a n saved) as (a1 & saved1 & -> & Hk1). simpl.
    destruct (IH a1 saved1) as (a2 & saved2 & -> & Hk2).
    exists a2, saved2. split; [reflexivity |].
    intros err Hs. apply Hk2. now apply Hk1.
Qed.

Lemma decodeUser_nonAborting : nonAborting decodeUser.
Proof.
  intros u [raw v] saved. unfold decodeUser, json.decodeStruct, json.mismatch.
  destruct v; simpl; eauto using saveError_keeps.
  apply decodeMembers_nonAborting, userField_nonAborting.
Qed.

Lemma decodeUser_notUser (u : User) (n : json.node) (saved : option error) :
  notObjectOrNull n.2 →
  ∃ u' saved', decodeUser u n saved = Ok (u', saved') ∧ is_Some saved'.
Proof.
  destruct n as [raw v]. unfold decodeUser, json.decodeStruct, json.mismatch.
  destruct v; simpl; intros Hn; try (exfalso; exact Hn);
    eauto using saveError_Some.
Qed.

(** One user is stored for each element, and an element a [User] cannot be
    decoded from leaves an error. *)
Lemma decodeElements_users (old : list User) (l : list json.node)
    (saved : option error) :
  ∃ users saved',
    json.decodeElements decodeUser zeroUser old l saved = Ok (users, saved')
    ∧ length users = length l
    ∧ (∀ err, saved = Some err → saved' = Some err)
    ∧ (Exists (λ n, notObjectOrNull n.2) l → is_Some saved').
Proof.
  revert old saved. induction l as [|n l IH]; intros old saved.
  - simpl. exists [], saved. repeat split; [eauto |].
    intros H. inversion H.
  - simpl.
    destruct (decodeUser_nonAborting (hd zeroUser old) n saved)
      as (u & saved1 & Hu & Hk1).
    rewrite Hu. simpl.
    destruct (IH (tl old) saved1) as (us & saved2 & -> & Hlen & Hk2 & Hbad).
    simpl. exists (u :: us), saved2. repeat split.
    + simpl. now rewrite Hlen.
    + intros err Hs. apply Hk2. now apply Hk1.
    + intros Hex. apply Exists_cons in Hex as [Hn | Hex]; [| now apply Hbad].
      destruct (decodeUser_notUser (hd zeroUser old) n saved Hn)
        as (u' & saved' & Hu' & [err Hs]).
      rewrite Hu in Hu'. injection Hu' as <- <-. subst saved1.
      rewrite (Hk2 err eq_refl). eauto.
Qed.

(** A [null] element leaves the user it is stored into as it was. *)
Lemma decodeElements_users_null (old : list User) (l : list json.node)
    (saved saved' : option error) (users : list User) :
  json.decodeElements decodeUser zeroUser old l saved = Ok (users, saved') →
  Forall (λ u, u = zeroUser) old →
  ∀ i raw, l !! i = Some (raw, Null) → users !! i = Some zeroUser.
Proof.
  revert old saved users. induction l as [|n l IH];
    intros old saved users Hd Hold i raw Hi; [discriminate |].
  simpl in Hd.
  destruct (decodeUser (hd zeroUser old) n saved) as [[u saved1]|err] eqn:Hu;
    [| discriminate].
  simpl in Hd.
  destruct (json.decodeElements decodeUser zeroUser (tl old) l saved1)
    as [[us saved2]|err] eqn:Hus; [| discriminate].
  simpl in Hd. injection Hd as <- <-.
  destruct i as [|i].
  - simpl in Hi. injection Hi as ->. injection Hu as <- _. simpl.
    f_equal. destruct Hold; [reflexivity | assumption].
  - simpl in Hi. simpl. apply (IH (tl old) saved1 us Hus) with (raw := raw).
    + destruct Hold; [constructor | assumption].
    + exact Hi.
Qed.

(** An array decodes to a slice that is not nil, of one user for each
    element. *)
Lemma Unmarshal_users_Array (b : bytes) (l : list json.node)
    (old users : slice User) :
  json.parse b = Ok (Array l) →
  json.Unmarshal decodeUsers b old = Ok users →
  ∃ us, users = Slice us ∧ length us = length l.
Proof.
  intros H. unfold json.Unmarshal. rewrite H. simpl.
  unfold decodeUsers, json.decodeSlice. simpl.
  destruct (decodeElements_users (elemsOf old) l None)
    as (us & saved & -> & Hlen & _ & _).
  simpl. destruct saved; [discriminate |].
  intros [= <-]. now exists us.
Qed.

(** C5: UnmarshalJSON tries the string first. When the bytes decode as a
    string, the receiver gets that Topic and the error is nil. When they do
    not but decode as a list of users, the receiver gets these Users and the
    error is nil. When both decodings fail, the receiver is unchanged and
    the error is the one of the second decoding. *)
Theorem UnmarshalJSON_order (d : DisplayRecipient) (b : bytes) :
  (∀ topic,
     json.Unmarshal json.decodeString b EmptyString = Ok topic →
     UnmarshalJSON d b = (setDTopic topic d, None))
  ∧ (∀ err1 users,
       json.Unmarshal json.decodeString b EmptyString = Err err1 →
       json.Unmarshal decodeUsers b (Slice [zeroUser]) = Ok users →
       UnmarshalJSON d b = (setUsers users d, None))
  ∧ (∀ err1 err2,
       json.Unmarshal json.decodeString b EmptyString = Err err1 →
       json.Unmarshal decodeUsers b (Slice [zeroUser]) = Err err2 →
       UnmarshalJSON d b = (d, Some err2)).
Proof.
  unfold UnmarshalJSON. repeat split.
  - intros topic H. now rewrite H.
  - intros err1 users H1 H2. now rewrite H1, H2.
  - intros err1 err2 H1 H2. now rewrite H1, H2.
Qed.

(** C6, as the code has it: a decode that succeeds writes one field and
    leaves the other as the receiver had it. A JSON string sets the Topic to
    that string and leaves the Users; a JSON array whose elements decode as
    users sets the Users to these users, one for each element, in a slice
    that is not nil, also for the empty array, and leaves the Topic. Into a
    fresh DisplayRecipient a string that is not empty therefore gives the
    Topic and nil Users, and an array gives Users that are not nil and the
    empty Topic. *)
Theorem UnmarshalJSON_one_variant (d : DisplayRecipient) (b : bytes) :
  (∀ s,
     json.parse b = Ok (Str s) →
     UnmarshalJSON d b = (mkDisplayRecipient (Users d) s, None))
  ∧ (∀ l users,
       json.parse b = Ok (Array l) →
       json.Unmarshal decodeUsers b nilSlice = Ok users →
       users ≠ nilSlice
       ∧ length (elemsOf users) = length l
       ∧ UnmarshalJSON d b = (mkDisplayRecipient users (DTopic d), None))
  ∧ (json.parse b = Ok (Array []) →
     UnmarshalJSON d b = (mkDisplayRecipient (Slice []) (DTopic d), None))
  ∧ (∀ s,
       json.parse b = Ok (Str s) →
       s ≠ EmptyString →
       DTopic (UnmarshalJSON zeroDisplayRecipient b).1 ≠ EmptyString
       ∧ Users (UnmarshalJSON zeroDisplayRecipient b).1 = nilSlice)
  ∧ (∀ l users,
       json.parse b = Ok (Array l) →
       json.Unmarshal decodeUsers b nilSlice = Ok users →
       DTopic (UnmarshalJSON zeroDisplayRecipient b).1 = EmptyString
       ∧ Users (UnmarshalJSON zeroDisplayRecipient b).1 ≠ nilSlice).
Proof.
  assert (Hstr : ∀ d' s, json.parse b = Ok (Str s) →
            UnmarshalJSON d' b = (mkDisplayRecipient (Users d') s, None)).
  { intros d' s H. unfold UnmarshalJSON.
    now rewrite (Unmarshal_string_Str _ s). }
  assert (Harr : ∀ d' l users, json.parse b = Ok (Array l) →
            json.Unmarshal decodeUsers b nilSlice = Ok users →
            users ≠ nilSlice
            ∧ length (elemsOf users) = length l
            ∧ UnmarshalJSON d' b
              = (mkDisplayRecipient users (DTopic d'), None)).
  { intros d' l users H Hu.
    destruct (Unmarshal_users_Array b l nilSlice users H Hu)
      as (us & -> & Hlen).
    split; [discriminate |]. split; [exact Hlen |].
    unfold UnmarshalJSON. rewrite (Unmarshal_string_Array _ l) by exact H.
    rewrite Unmarshal_users_make. now rewrite Hu. }
  split; [apply Hstr |]. split; [apply Harr |]. split; [| split].
  - intros H. unfold UnmarshalJSON.
    rewrite (Unmarshal_string_Array _ []) by exact H.
    now rewrite Unmarshal_users_empty.
  - intros s H Hs. rewrite (Hstr _ s H). now split.
  - intros l users H Hu.
    destruct (Harr zeroDisplayRecipient l users H Hu) as (Hne & _ & ->).
    now split.
Qed.

(** The field a decode does not set keeps what the receiver had. *)
Lemma UnmarshalJSON_keeps_other (d : DisplayRecipient) (b : bytes)
    (d' : DisplayRecipient) :
  UnmarshalJSON d b = (d', None) →
  Users d' = Users d ∨ DTopic d' = DTopic d.
Proof.
  unfold UnmarshalJSON.
  destruct (json.Unmarshal json.decodeString b EmptyString).
  - intros [= <-]. now left.
  - destruct (json.Unmarshal decodeUsers b (Slice [zeroUser]));
      [| discriminate].
    intros [= <-]. now right.
Qed.

(** [null] takes the string branch and gives the empty Topic. *)
Lemma UnmarshalJSON_null (d : DisplayRecipient) :
  UnmarshalJSON d "null" = (setDTopic EmptyString d, None).
Proof. reflexivity. Qed.

(** *** Parsing events *)

Lemma decodeRawMap_members (l : list (string * json.node))
    (m : gmap string json.RawMessage) (saved : option error) :
  json.decodeMembers (λ key m n saved, Ok (<[key := n.1]> m, saved)) m l saved
  = Ok (foldl (λ m kn, <[kn.1 := kn.2.1]> m) m l, saved).
Proof.
  revert m. induction l as [|[key n] l IH]; intros m; [reflexivity |].
  simpl. apply IH.
Qed.

Lemma Unmarshal_rawMap_Object (raw : bytes) (l : list (string * json.node)) :
  json.parse raw = Ok (Object l) →
  json.Unmarshal json.decodeRawMap raw ∅
  = Ok (foldl (λ m kn, <[kn.1 := kn.2.1]> m) ∅ l).
Proof.
  intros H. unfold json.Unmarshal. rewrite H. simpl.
  unfold json.decodeRawMap, json.decodeStruct. simpl.
  now rewrite decodeRawMap_members.
Qed.

Lemma lookup_members_absent (key : string) (l : list (string * json.node))
    (m : gmap string json.RawMessage) :
  key ∉ l.*1 →
  foldl (λ m kn, <[kn.1 := kn.2.1]> m) m l !! key = m !! key.
Proof.
  revert m. induction l as [|[k n] l IH]; intros m Hin; [reflexivity |].
  rewrite fmap_cons in Hin. apply not_elem_of_cons in Hin as [Hne Hin].
  simpl. rewrite IH by exact Hin.
  apply lookup_insert_ne. intros Heq. apply Hne. now rewrite <- Heq.
Qed.

(** A response whose top-level object has no member "events" is refused. *)
Lemma ParseEventMessages_object_without_events (raw : bytes)
    (l : list (string * json.node)) :
  json.parse raw = Ok (Object l) →
  "events" ∉ l.*1 →
  ParseEventMessages raw = Err json.unexpectedEnd.
Proof.
  intros H Habs. unfold ParseEventMessages.
  rewrite (Unmarshal_rawMap_Object raw l H). simpl.
  unfold index. rewrite lookup_members_absent by exact Habs.
  reflexivity.
Qed.

Lemma parseEvents_ok (events : list (gmap string json.RawMessage))
    (msgs acc : list EventMessage) :
  Forall2 decodesTo events msgs →
  parseEvents events acc = Ok (acc ++ msgs).
Proof.
  intros H. revert acc. induction H as [|event msg events msgs Hd _ IH];
    intros acc; simpl.
  - now rewrite app_nil_r.
  - unfold decodesTo in Hd. rewrite Hd. simpl. rewrite IH.
    now rewrite <- app_assoc.
Qed.

Lemma parseEvents_first_error (pre post : list (gmap string json.RawMessage))
    (event : gmap string json.RawMessage) (msgs acc : list EventMessage)
    (err : error) :
  Forall2 decodesTo pre msgs →
  json.Unmarshal decodeEventMessage (index event "message") zeroEventMessage
  = Err err →
  parseEvents (pre ++ event :: post) acc = Err err.
Proof.
  intros H Herr. revert acc. induction H as [|ev msg pre msgs Hd _ IH];
    intros acc; simpl.
  - now rewrite Herr.
  - unfold decodesTo in Hd. rewrite Hd. simpl. apply IH.
Qed.

Lemma Unmarshal_events_empty (ev : bytes) :
  json.parse ev = Ok (Array []) →
  json.Unmarshal decodeEvents ev (Slice []) = Ok (Slice []).
Proof. intros H. unfold json.Unmarshal. now rewrite H. Qed.

(** C2, as the code has it: when the decoded top-level object has no
    "events" key, ParseEventMessages returns the decoder's error
    "unexpected end of JSON input" and no messages; when the key holds an
    empty array, it returns the empty sequence and no error. *)
Theorem ParseEventMessages_events_absent_or_empty (raw : bytes)
    (rawResponse : gmap string json.RawMessage) :
  json.Unmarshal json.decodeRawMap raw ∅ = Ok rawResponse →
  (rawResponse !! "events" = None →
     ParseEventMessages raw = Err json.unexpectedEnd)
  ∧ (∀ ev,
       rawResponse !! "events" = Some ev →
       json.parse ev = Ok (Array []) →
       ParseEventMessages raw = Ok []).
Proof.
  intros Hraw. unfold ParseEventMessages. rewrite Hraw. simpl.
  unfold index. split.
  - intros Habs. rewrite Habs. reflexivity.
  - intros ev Hev Hparse. rewrite Hev. simpl.
    now rewrite Unmarshal_events_empty.
Qed.

(** C9: when the events before one decode and the "message" of that one
    does not, ParseEventMessages returns the error of that decoding,
    whatever the events after it are, and no messages. *)
Theorem ParseEventMessages_first_error (raw : bytes)
    (rawResponse : gmap string json.RawMessage)
    (pre post : list (gmap string json.RawMessage))
    (event : gmap string json.RawMessage) (msgs : list EventMessage)
    (err : error) :
  json.Unmarshal json.decodeRawMap raw ∅ = Ok rawResponse →
  json.Unmarshal decodeEvents (index rawResponse "events") (Slice [])
  = Ok (Slice (pre ++ event :: post)) →
  Forall2 decodesTo pre msgs →
  json.Unmarshal decodeEventMessage (index event "message") zeroEventMessage
  = Err err →
  ParseEventMessages raw = Err err.
Proof.
  intros Hraw Hev Hpre Herr. unfold ParseEventMessages.
  rewrite Hraw. simpl. rewrite Hev. simpl.
  now apply (parseEvents_first_error pre post event msgs).
Qed.

(** ** The statements at concrete inputs *)

Lemma Message_empty_content_witness :
  Content (mkMessage "general" "t1" ["a@x.com"] EmptyString) = EmptyString
  ∧ testMessage testBot (mkMessage "general" "t1" ["a@x.com"] EmptyString)
      testWorld
    = ((None, Some (errors_New "content cannot be empty")), testWorld).
Proof.
  split; [reflexivity |].
  apply (Message_empty_content testConstructRequest testClient_Do testBot
           (mkMessage "general" "t1" ["a@x.com"] EmptyString) testWorld).
  reflexivity.
Defined.

Lemma Message_routes_private_witness :
  Emails (mkMessage EmptyString EmptyString ["a@x.com"] "hi") ≠ []
  ∧ Content (mkMessage EmptyString EmptyString ["a@x.com"] "hi") ≠ EmptyString
  ∧ testMessage testBot (mkMessage EmptyString EmptyString ["a@x.com"] "hi")
      testWorld
    = testPrivateMessage testBot
        (mkMessage EmptyString EmptyString ["a@x.com"] "hi") testWorld
  ∧ testMessage testBot (mkMessage EmptyString EmptyString ["a@x.com"] "hi")
      testWorld
    = ((Some "200 OK", None), testSent "content=hi&to=a%40x.com&type=private").
Proof.
  assert (HE : Emails (mkMessage EmptyString EmptyString ["a@x.com"] "hi") ≠ [])
    by discriminate.
  assert (HC : Content (mkMessage EmptyString EmptyString ["a@x.com"] "hi")
               ≠ EmptyString) by discriminate.
  destruct (Message_routes_private testConstructRequest testClient_Do testBot
              _ testWorld HE HC) as (Hm & _ & Hreq).
  split; [exact HE |]. split; [exact HC |]. split; [exact Hm |].
  destruct (Hreq (mkTestRequest "POST" "messages"
                    "content=hi&to=a%40x.com&type=private")) as [Hsend _].
  - vm_compute. reflexivity.
  - exact Hsend.
Defined.

Lemma PrivateMessage_empty_content_witness :
  Emails (mkMessage "general" "t1" ["a@x.com"] EmptyString) ≠ []
  ∧ Content (mkMessage "general" "t1" ["a@x.com"] EmptyString) = EmptyString
  ∧ testPrivateMessage testBot
      (mkMessage "general" "t1" ["a@x.com"] EmptyString) testWorld
    = ((Some "200 OK", None), testSent "content=&to=a%40x.com&type=private").
Proof.
  assert (HE : Emails (mkMessage "general" "t1" ["a@x.com"] EmptyString) ≠ [])
    by discriminate.
  split; [exact HE |]. split; [reflexivity |].
  destruct (PrivateMessage_empty_content testConstructRequest testClient_Do
              testBot _ testWorld HE eq_refl) as (_ & _ & Hreq).
  destruct (Hreq (mkTestRequest "POST" "messages"
                    "content=&to=a%40x.com&type=private")) as [Hsend _].
  - vm_compute. reflexivity.
  - exact Hsend.
Defined.

Lemma Respond_private_reply_witness :
  otherEmails testBot privateEvent = ["a@x.com"; "b@x.com"]
  ∧ testRespond testBot privateEvent "hello" testWorld
    = ((Some "200 OK", None),
       testSent "content=hello&to=a%40x.com%2C+b%40x.com&type=private")
  ∧ otherEmails testBot lonelyEvent = []
  ∧ testRespond testBot lonelyEvent "hello" testWorld
    = ((None,
        Some (fmt_Errorf
                "EventMessage had no Users within the DisplayRecipient" [])),
       testWorld).
Proof.
  assert (Hr : "hello" ≠ EmptyString) by discriminate.
  split; [reflexivity |]. split; [| split; [reflexivity |]].
  - destruct (Respond_private_reply testConstructRequest testClient_Do testBot
                privateEvent "hello" testWorld Hr eq_refl eq_refl)
      as [_ Hsome].
    destruct Hsome as (_ & _ & _ & Hreq); [discriminate |].
    destruct (Hreq (mkTestRequest "POST" "messages"
                      "content=hello&to=a%40x.com%2C+b%40x.com&type=private"))
      as [Hsend _].
    + vm_compute. reflexivity.
    + exact Hsend.
  - destruct (Respond_private_reply testConstructRequest testClient_Do testBot
                lonelyEvent "hello" testWorld Hr eq_refl eq_refl)
      as [Hnone _].
    apply Hnone. reflexivity.
Defined.

Lemma UnmarshalJSON_order_witness :
  UnmarshalJSON zeroDisplayRecipient (dq "'lunch'")
  = (mkDisplayRecipient nilSlice "lunch", None)
  ∧ UnmarshalJSON zeroDisplayRecipient (dq "[{'email':'a@x.com'}]")
    = (mkDisplayRecipient (Slice [userOf "a@x.com"]) EmptyString, None)
  ∧ json.Unmarshal json.decodeString "5" EmptyString
    = Err (UnmarshalTypeError "number" "string")
  ∧ UnmarshalJSON zeroDisplayRecipient "5"
    = (zeroDisplayRecipient,
       Some (UnmarshalTypeError "number" "[]gozulipbot.User")).
Proof.
  split; [| split; [| split]].
  - apply (UnmarshalJSON_order zeroDisplayRecipient (dq "'lunch'")).
    vm_compute. reflexivity.
  - apply (UnmarshalJSON_order zeroDisplayRecipient
             (dq "[{'email':'a@x.com'}]"))
      with (err1 := UnmarshalTypeError "array" "string");
      vm_compute; reflexivity.
  - vm_compute. reflexivity.
  - apply (UnmarshalJSON_order zeroDisplayRecipient "5")
      with (err1 := UnmarshalTypeError "number" "string");
      vm_compute; reflexivity.
Defined.

Lemma UnmarshalJSON_one_variant_witness :
  UnmarshalJSON zeroDisplayRecipient (dq "'lunch'")
  = (mkDisplayRecipient nilSlice "lunch", None)
  ∧ UnmarshalJSON zeroDisplayRecipient "[]"
    = (mkDisplayRecipient (Slice []) EmptyString, None)
  ∧ UnmarshalJSON (mkDisplayRecipient nilSlice "general")
      (dq "[{'email':'a@x.com','id':7},{'email':'b@x.com'}]")
    = (mkDisplayRecipient
         (Slice [setID 7 (userOf "a@x.com"); userOf "b@x.com"]) "general",
       None)
  ∧ Users (UnmarshalJSON zeroDisplayRecipient (dq "'lunch'")).1 = nilSlice
  ∧ Users (UnmarshalJSON zeroDisplayRecipient "[]").1 ≠ nilSlice.
Proof.
  split; [| split; [| split; [| split]]].
  - destruct (UnmarshalJSON_one_variant zeroDisplayRecipient (dq "'lunch'"))
      as (H & _).
    apply H. vm_compute. reflexivity.
  - destruct (UnmarshalJSON_one_variant zeroDisplayRecipient "[]")
      as (_ & _ & H & _).
    apply H. vm_compute. reflexivity.
  - destruct (UnmarshalJSON_one_variant
                (mkDisplayRecipient nilSlice "general")
                (dq "[{'email':'a@x.com','id':7},{'email':'b@x.com'}]"))
      as (_ & H & _).
    apply (H [(dq "{'email':'a@x.com','id':7}",
               Object [("email", (dq "'a@x.com'", Str "a@x.com"));
                       ("id", ("7", Number "7"))]);
              (dq "{'email':'b@x.com'}",
               Object [("email", (dq "'b@x.com'", Str "b@x.com"))])]);
      vm_compute; reflexivity.
  - destruct (UnmarshalJSON_one_variant zeroDisplayRecipient (dq "'lunch'"))
      as (_ & _ & _ & H & _).
    apply (H "lunch"); [vm_compute; reflexivity | discriminate].
  - destruct (UnmarshalJSON_one_variant zeroDisplayRecipient "[]")
      as (_ & _ & _ & _ & H).
    apply (H [] (Slice [])); vm_compute; reflexivity.
Defined.

(** C6 as stated fails on the code. The JSON string with no character
    decodes without error and leaves a fresh DisplayRecipient as it was,
    with neither variant set. An array decoded into a DisplayRecipient that
    holds a Topic leaves both variants set, and so does a message whose
    object has the key "display_recipient" twice, through
    ParseEventMessages. *)
Lemma UnmarshalJSON_one_variant_counterexample :
  UnmarshalJSON zeroDisplayRecipient (dq "''") = (zeroDisplayRecipient, None)
  ∧ UnmarshalJSON (mkDisplayRecipient nilSlice "general")
      (dq "[{'email':'a@x.com'}]")
    = (mkDisplayRecipient (Slice [userOf "a@x.com"]) "general", None)
  ∧ ParseEventMessages twiceDisplayRecipient
    = Ok [setEDisplayRecipient
            (mkDisplayRecipient (Slice [userOf "a@x.com"]) "general")
            zeroEventMessage].
Proof. repeat split; vm_compute; reflexivity. Qed.

Lemma ParseEventMessages_events_absent_or_empty_witness :
  json.Unmarshal json.decodeRawMap "{}" ∅ = Ok ∅
  ∧ ParseEventMessages "{}" = Err json.unexpectedEnd
  ∧ json.Unmarshal json.decodeRawMap (dq "{'events': [ ]}") ∅
    = Ok {[ "events" := "[ ]" ]}
  ∧ ParseEventMessages (dq "{'events': [ ]}") = Ok [].
Proof.
  assert (H1 : json.Unmarshal json.decodeRawMap "{}" ∅ = Ok ∅)
    by (vm_compute; reflexivity).
  assert (H2 : json.Unmarshal json.decodeRawMap (dq "{'events': [ ]}") ∅
               = Ok {[ "events" := "[ ]" ]})
    by (vm_compute; reflexivity).
  split; [exact H1 |]. split; [| split; [exact H2 |]].
  - apply (ParseEventMessages_events_absent_or_empty "{}" ∅ H1).
    vm_compute. reflexivity.
  - apply (ParseEventMessages_events_absent_or_empty _ _ H2) with (ev := "[ ]");
      vm_compute; reflexivity.
Defined.

(** C2 as stated fails on the response [{}]: its top-level object has no
    "events" key, and ParseEventMessages returns an error and not the empty
    sequence. *)
Lemma ParseEventMessages_absent_events_counterexample :
  json.Unmarshal json.decodeRawMap "{}" ∅ = Ok ∅
  ∧ (∅ : gmap string json.RawMessage) !! "events" = None
  ∧ ParseEventMessages "{}" = Err (SyntaxError "unexpected end of JSON input")
  ∧ ParseEventMessages "{}" ≠ Ok [].
Proof.
  split; [vm_compute; reflexivity |]. split; [reflexivity |].
  split; [vm_compute; reflexivity |].
  intros H. vm_compute in H. discriminate.
Qed.

Lemma ParseEventMessages_first_error_witness :
  json.Unmarshal json.decodeRawMap badSecondEvent ∅
  = Ok {[ "events" :=
            dq "[{'message':{'content':'hi'}},{'message':{'id':1.5}},{'message':{}}]" ]}
  ∧ decodesTo {[ "message" := dq "{'content':'hi'}" ]}
      (setEContent "hi" zeroEventMessage)
  ∧ json.Unmarshal decodeEventMessage
      (index {[ "message" := dq "{'id':1.5}" ]} "message") zeroEventMessage
    = Err (UnmarshalTypeError "number 1.5" "int")
  ∧ ParseEventMessages badSecondEvent
    = Err (UnmarshalTypeError "number 1.5" "int").
Proof.
  assert (H1 : json.Unmarshal json.decodeRawMap badSecondEvent ∅
               = Ok {[ "events" :=
                         dq "[{'message':{'content':'hi'}},{'message':{'id':1.5}},{'message':{}}]" ]})
    by (vm_compute; reflexivity).
  assert (H2 : decodesTo {[ "message" := dq "{'content':'hi'}" ]}
                 (setEContent "hi" zeroEventMessage))
    by (vm_compute; reflexivity).
  assert (H3 : json.Unmarshal decodeEventMessage
                 (index {[ "message" := dq "{'id':1.5}" ]} "message")
                 zeroEventMessage
               = Err (UnmarshalTypeError "number 1.5" "int"))
    by (vm_compute; reflexivity).
  split; [exact H1 |]. split; [exact H2 |]. split; [exact H3 |].
  apply (ParseEventMessages_first_error badSecondEvent _
           [ {[ "message" := dq "{'content':'hi'}" ]} ]
           [ {[ "message" := "{}" ]} ]
           {[ "message" := dq "{'id':1.5}" ]}
           [setEContent "hi" zeroEventMessage]
           _ H1).
  - vm_compute. reflexivity.
  - constructor; [exact H2 | constructor].
  - exact H3.
Defined.

(** ** Further properties of message.go *)

(** *** The values and the body of a request *)

Lemma Encode_stream_values (stream topic content : string) :
  url.Encode
    (url.Set_ "subject" topic
       (url.Set_ "content" content
          (url.Set_ "to" stream (url.Set_ "type" "stream" ∅))))
  = streamBody stream topic content.
Proof.
  unfold url.Encode, streamBody.
  assert (Hk : merge_sort url.byteOrder
                 (map fst
                    (map_to_list
                       (url.Set_ "subject" topic
                          (url.Set_ "content" content
                             (url.Set_ "to" stream
                                (url.Set_ "type" "stream" ∅))))))
               = ["content"; "subject"; "to"; "type"])
    by (vm_compute; reflexivity).
  rewrite Hk. clear Hk. unfold url.Set_.
  cbn [foldl]. simplify_map_eq. cbn [foldl default].
  change (url.QueryEscape "content") with "content".
  change (url.QueryEscape "subject") with "subject".
  change (url.QueryEscape "to") with "to".
  change (url.QueryEscape "type") with "type".
  change (url.QueryEscape "stream") with "stream".
  change (String.eqb EmptyString EmptyString) with true. cbv iota.
  rewrite !append_assoc. reflexivity.
Qed.

Lemma Encode_private_values (to content : string) :
  url.Encode
    (url.Set_ "content" content
       (url.Set_ "to" to (url.Set_ "type" "private" ∅)))
  = privateBody to content.
Proof.
  unfold url.Encode, privateBody.
  assert (Hk : merge_sort url.byteOrder
                 (map fst
                    (map_to_list
                       (url.Set_ "content" content
                          (url.Set_ "to" to (url.Set_ "type" "private" ∅)))))
               = ["content"; "to"; "type"])
    by (vm_compute; reflexivity).
  rewrite Hk. clear Hk. unfold url.Set_.
  cbn [foldl]. simplify_map_eq. cbn [foldl default].
  change (url.QueryEscape "content") with "content".
  change (url.QueryEscape "to") with "to".
  change (url.QueryEscape "type") with "type".
  change (url.QueryEscape "private") with "private".
  change (String.eqb EmptyString EmptyString) with true. cbv iota.
  rewrite !append_assoc. reflexivity.
Qed.

(** X1: the values of a request. [content] is always the Content as it
    is; [type] is "stream" without emails and "private" with emails;
    [subject] is the Topic without emails and is absent with emails. *)
Theorem messageValues_fields (m : Message) :
  messageValues m !! "content" = Some [Content m]
  ∧ messageValues m !! "type"
    = Some [if decide (Emails m = []) then "stream" else "private"]
  ∧ messageValues m !! "subject"
    = (if decide (Emails m = []) then Some [Topic m] else None)
  ∧ dom (messageValues m)
    = (if decide (Emails m = [])
       then {[ "type"; "to"; "content"; "subject" ]}
       else {[ "type"; "to"; "content" ]} : gset string).
Proof.
  case_decide as HE.
  - rewrite messageValues_stream by exact HE. unfold url.Set_.
    split; [| split; [| split]]; [by simplify_map_eq .. |].
    rewrite !dom_insert_L, dom_empty_L. set_solver.
  - rewrite messageValues_private by exact HE. unfold url.Set_.
    split; [| split; [| split]]; [by simplify_map_eq .. |].
    rewrite !dom_insert_L, dom_empty_L. set_solver.
Qed.

(** X2: with exactly one email the field [to] is that email, whatever the
    Stream is. *)
Theorem to_single_email (m : Message) (e : string) :
  Emails m = [e] →
  url.Get "to" (messageValues m) = e.
Proof.
  intros HE. rewrite messageValues_private by (rewrite HE; discriminate).
  rewrite HE. rewrite Get_Set_ne by discriminate. apply Get_Set_eq.
Qed.

(** Without emails the field [to] is the Stream. *)
Lemma to_stream (m : Message) :
  Emails m = [] →
  url.Get "to" (messageValues m) = Stream m.
Proof.
  intros HE. rewrite messageValues_stream by exact HE.
  rewrite !Get_Set_ne by discriminate. apply Get_Set_eq.
Qed.

(** X3: with an empty Stream and at least one email, the field [to] is the
    emails joined by ", " in their order. *)
Theorem to_emails_without_stream (m : Message) :
  Emails m ≠ [] →
  Stream m = EmptyString →
  url.Get "to" (messageValues m) = Join (Emails m) ", ".
Proof.
  intros HE HS. rewrite messageValues_private by exact HE.
  rewrite Get_Set_ne by discriminate. rewrite Get_Set_eq. rewrite HS.
  destruct (Emails m) as [|e [|e' rest]]; [congruence | reflexivity ..].
Qed.

(** *** Validation and sending *)

Section SendingMore.

Context {Request Response Client : Type}.
Variable constructRequest : Bot → string → string → string → res Request.
Variable Do : Request → Client → (option Response * option error) * Client.

#[local] Abbreviation Message' := (Bot_Message constructRequest Do).
#[local] Abbreviation PrivateMessage' :=
  (Bot_PrivateMessage constructRequest Do).
#[local] Abbreviation Respond' := (Bot_Respond constructRequest Do).
#[local] Abbreviation constructMessageRequest' :=
  (Bot_constructMessageRequest constructRequest).
#[local] Abbreviation postMessages' := (postMessages constructRequest Do).
#[local] Abbreviation World' := (World Request Client).

Lemma construct_and_Do_post (b : Bot) (m : Message) (w : World') :
  construct_and_Do constructRequest Do b m w
  = postMessages' b (url.Encode (messageValues m)) w.
Proof. reflexivity. Qed.

Lemma clientDo_result (req : Request) (w : World') :
  clientDo Do req w
  = ((Do req (client w)).1, mkWorld (Do req (client w)).2 (sent w ++ [req])).
Proof. unfold clientDo. destruct (Do req (client w)). reflexivity. Qed.

Lemma Message_stream (b : Bot) (m : Message) (w : World') :
  Emails m = [] →
  Content m ≠ EmptyString →
  Stream m ≠ EmptyString →
  Topic m ≠ EmptyString →
  Message' b m w
  = postMessages' b (streamBody (Stream m) (Topic m) (Content m)) w.
Proof.
  intros HE HC HS HT. unfold Bot_Message.
  rewrite decide_False by exact HC. rewrite HE. cbn [length].
  rewrite decide_False by (intros H; now apply H).
  rewrite decide_False by exact HS. rewrite decide_False by exact HT.
  unfold postMessages, Bot_constructMessageRequest.
  rewrite messageValues_stream by exact HE.
  now rewrite Encode_stream_values.
Qed.

Lemma PrivateMessage_post (b : Bot) (m : Message) (w : World') :
  Emails m ≠ [] →
  Stream m = EmptyString ∨ length (Emails m) = 1 →
  PrivateMessage' b m w
  = postMessages' b (privateBody (Join (Emails m) ", ") (Content m)) w.
Proof.
  intros HE Hor. unfold Bot_PrivateMessage.
  rewrite decide_False by (destruct (Emails m); [congruence | discriminate]).
  unfold postMessages, Bot_constructMessageRequest.
  rewrite messageValues_private by exact HE.
  assert (Hto : match Emails m with
                | [e] => e
                | _ => Stream m +:+ Join (Emails m) ", "
                end = Join (Emails m) ", ").
  { destruct (Emails m) as [|e [|e' rest]]; [congruence | reflexivity |].
    destruct Hor as [HS | Hlen]; [now rewrite HS | discriminate]. }
  rewrite Hto. now rewrite Encode_private_values.
Qed.

Lemma Message_cases (b : Bot) (m : Message) (w : World') :
  (∃ err, Message' b m w = failed err w)
  ∨ (∃ req, constructMessageRequest' b m = Ok req
            ∧ Message' b m w = clientDo Do req w).
Proof.
  unfold Bot_Message, Bot_PrivateMessage.
  repeat case_decide; try (left; eexists; reflexivity);
    destruct (constructMessageRequest' b m) as [req|err];
    first [right; eexists; split; reflexivity | left; eexists; reflexivity].
Qed.

(** X4: a message without emails and with a non-empty Content is refused
    with "stream cannot be empty" when its Stream is empty, and with "topic
    cannot be empty" when its Stream is set and its Topic is empty; in both
    cases the world is left as it was. *)
Theorem Message_stream_validation (b : Bot) (m : Message) (w : World') :
  Emails m = [] →
  Content m ≠ EmptyString →
  (Stream m = EmptyString →
     Message' b m w = ((None, Some (errors_New "stream cannot be empty")), w))
  ∧ (Stream m ≠ EmptyString → Topic m = EmptyString →
       Message' b m w
       = ((None, Some (errors_New "topic cannot be empty")), w)).
Proof.
  intros HE HC. unfold Bot_Message.
  rewrite decide_False by exact HC. rewrite HE. cbn [length].
  rewrite decide_False by (intros H; now apply H). split.
  - intros HS. now rewrite decide_True.
  - intros HS HT. rewrite decide_False by exact HS. now rewrite decide_True.
Qed.

(** X5: a message without emails whose Content, Stream and Topic are not
    empty is posted: constructRequest is called with "POST", "messages" and
    the body content=..&subject=..&to=..&type=stream of the escaped Content,
    Topic and Stream; its error is returned without a call of Do, and its
    request is handed to Do, whose response and error are returned as they
    are. *)
Theorem Message_stream_send (b : Bot) (m : Message) (w : World') :
  Emails m = [] →
  Content m ≠ EmptyString →
  Stream m ≠ EmptyString →
  Topic m ≠ EmptyString →
  Message' b m w
  = match constructRequest b "POST" "messages"
            (streamBody (Stream m) (Topic m) (Content m)) with
    | Err err => ((None, Some err), w)
    | Ok req =>
        ((Do req (client w)).1,
         mkWorld (Do req (client w)).2 (sent w ++ [req]))
    end.
Proof.
  intros HE HC HS HT. rewrite Message_stream by assumption.
  unfold postMessages. destruct (constructRequest _ _ _ _); [| reflexivity].
  apply clientDo_result.
Qed.

(** X6: PrivateMessage on a message without emails fails with "there must
    be at least one recipient" and leaves the world as it was, whatever the
    other fields are. *)
Theorem PrivateMessage_no_recipient (b : Bot) (m : Message) (w : World') :
  Emails m = [] →
  PrivateMessage' b m w
  = ((None, Some (errors_New "there must be at least one recipient")), w)
  ∧ sent (PrivateMessage' b m w).2 = sent w.
Proof.
  intros HE. unfold Bot_PrivateMessage. rewrite HE. cbn [length].
  rewrite decide_True by reflexivity. split; reflexivity.
Qed.

(** X7: a private message to one recipient, or to several with an empty
    Stream, is posted with the body content=..&to=..&type=private, where
    [to] is the escaped emails joined by ", "; the Topic is not sent. *)
Theorem PrivateMessage_send (b : Bot) (m : Message) (w : World') :
  Emails m ≠ [] →
  Stream m = EmptyString ∨ length (Emails m) = 1 →
  PrivateMessage' b m w
  = match constructRequest b "POST" "messages"
            (privateBody (Join (Emails m) ", ") (Content m)) with
    | Err err => ((None, Some err), w)
    | Ok req =>
        ((Do req (client w)).1,
         mkWorld (Do req (client w)).2 (sent w ++ [req]))
    end.
Proof.
  intros HE Hor. rewrite PrivateMessage_post by assumption.
  unfold postMessages. destruct (constructRequest _ _ _ _); [| reflexivity].
  apply clientDo_result.
Qed.

(** X8: Message either fails before the client is used, with a nil
    response, an error and the world as it was, or hands exactly one
    request to Do, the one constructMessageRequest made, and returns what Do
    returns. *)
Theorem Message_one_request (b : Bot) (m : Message) (w : World') :
  (∃ err, Message' b m w = ((None, Some err), w))
  ∨ (∃ req, constructMessageRequest' b m = Ok req
            ∧ (Message' b m w).1 = (Do req (client w)).1
            ∧ client (Message' b m w).2 = (Do req (client w)).2
            ∧ sent (Message' b m w).2 = sent w ++ [req]).
Proof.
  destruct (Message_cases b m w) as [[err H] | (req & Hreq & H)].
  - left. now exists err.
  - right. exists req. rewrite H, clientDo_result. now repeat split.
Qed.

(** X9: Respond either fails before the client is used, leaving the
    world as it was, or hands exactly one request to Do: the request of a
    message whose Content is the reply text. *)
Theorem Respond_one_request (b : Bot) (e : EventMessage) (response : string)
    (w : World') :
  (∃ err, Respond' b e response w = ((None, Some err), w))
  ∨ (∃ m req, Content m = response
              ∧ constructMessageRequest' b m = Ok req
              ∧ (Respond' b e response w).1 = (Do req (client w)).1
              ∧ client (Respond' b e response w).2 = (Do req (client w)).2
              ∧ sent (Respond' b e response w).2 = sent w ++ [req]).
Proof.
  assert (Hm : ∀ m, Content m = response →
            (∃ err, Message' b m w = ((None, Some err), w))
            ∨ (∃ m' req, Content m' = response
                 ∧ constructMessageRequest' b m' = Ok req
                 ∧ (Message' b m w).1 = (Do req (client w)).1
                 ∧ client (Message' b m w).2 = (Do req (client w)).2
                 ∧ sent (Message' b m w).2 = sent w ++ [req])).
  { intros m HC. destruct (Message_cases b m w) as [[err H] | (req & Hreq & H)].
    - left. now exists err.
    - right. exists m, req. rewrite H, clientDo_result. now repeat split. }
  unfold Bot_Respond. case_decide; [left; eexists; reflexivity |].
  case_decide; [now apply Hm |].
  case_decide; [| left; eexists; reflexivity].
  destruct (Bot_privateResponseList b e); [| left; eexists; reflexivity].
  now apply Hm.
Qed.

(** X10: a reply to an event with a Subject and a DisplayRecipient.Topic is
    posted to that stream and topic: the body is
    content=..&subject=..&to=..&type=stream with the reply text, the Subject
    and the DisplayRecipient.Topic. The Users of the event play no part. *)
Theorem Respond_stream_reply (b : Bot) (e : EventMessage) (response : string)
    (w : World') :
  response ≠ EmptyString →
  Subject e ≠ EmptyString →
  DTopic (EDisplayRecipient e) ≠ EmptyString →
  Respond' b e response w
  = postMessages' b
      (streamBody (DTopic (EDisplayRecipient e)) (Subject e) response) w.
Proof.
  intros Hr Hs Ht. unfold Bot_Respond. cbn [Topic].
  rewrite decide_False by exact Hr. rewrite decide_True by exact Hs.
  now rewrite Message_stream.
Qed.

(** X11: a reply to an event with a Subject and an empty
    DisplayRecipient.Topic fails with "stream cannot be empty" and sends
    nothing, also when the event has Users. *)
Theorem Respond_subject_without_stream (b : Bot) (e : EventMessage)
    (response : string) (w : World') :
  response ≠ EmptyString →
  Subject e ≠ EmptyString →
  DTopic (EDisplayRecipient e) = EmptyString →
  Respond' b e response w
  = ((None, Some (errors_New "stream cannot be empty")), w).
Proof.
  intros Hr Hs Ht. unfold Bot_Respond. cbn [Topic].
  rewrite decide_False by exact Hr. rewrite decide_True by exact Hs.
  unfold Bot_Message. cbn [Content Emails Stream length].
  rewrite decide_False by exact Hr.
  rewrite decide_False by (intros H; now apply H).
  now rewrite decide_True.
Qed.

(** X12: a private reply is posted with the body
    content=..&to=..&type=private, where [to] is the escaped emails of the
    other users joined by ", ". *)
Theorem Respond_private_body (b : Bot) (e : EventMessage) (response : string)
    (w : World') :
  response ≠ EmptyString →
  Subject e = EmptyString →
  DTopic (EDisplayRecipient e) = EmptyString →
  otherEmails b e ≠ [] →
  Respond' b e response w
  = postMessages' b (privateBody (Join (otherEmails b e) ", ") response) w.
Proof.
  intros Hr Hs Ht Hne.
  rewrite (Respond_private_path constructRequest Do b e response w Hr Hs Ht).
  unfold privateReply. rewrite privateResponseList_spec.
  destruct (otherEmails b e) as [|x xs] eqn:Hem; [congruence |].
  rewrite Message_private by (first [discriminate | exact Hr]).
  rewrite PrivateMessage_post; [reflexivity | discriminate | now left].
Qed.

Lemma postMessages_posted (b : Bot) (body : string) (w : World') :
  postMessages' b body w = posted constructRequest Do b body w.
Proof.
  unfold postMessages, posted.
  destruct (constructRequest _ _ _ _); [| reflexivity].
  apply clientDo_result.
Qed.

(** C3, as the code has it: Respond classifies in this order. An empty
    reply text fails. A non-empty Subject makes the stream message whose
    Stream is DisplayRecipient.Topic and whose Topic is the Subject: with a
    DisplayRecipient.Topic that is not empty its request is constructed and
    handed to Do, and with an empty one Respond fails with "stream cannot be
    empty" and sends nothing. An empty Subject with an empty
    DisplayRecipient.Topic takes the private-reply path: the request to the
    other users is constructed and handed to Do, or Respond fails when
    there is no other user. An empty Subject with a DisplayRecipient.Topic
    that is not empty fails with the "not understood" error that carries
    the event. Every failure leaves the world as it was. *)
Theorem Respond_classification (b : Bot) (e : EventMessage)
    (response : string) (w : World') :
  (response = EmptyString →
     Respond' b e response w
     = ((None, Some (errors_New "Message response cannot be blank")), w))
  ∧ (response ≠ EmptyString → Subject e ≠ EmptyString →
     DTopic (EDisplayRecipient e) ≠ EmptyString →
       Respond' b e response w
       = posted constructRequest Do b
           (streamBody (DTopic (EDisplayRecipient e)) (Subject e) response)
           w)
  ∧ (response ≠ EmptyString → Subject e ≠ EmptyString →
     DTopic (EDisplayRecipient e) = EmptyString →
       Respond' b e response w
       = ((None, Some (errors_New "stream cannot be empty")), w))
  ∧ (response ≠ EmptyString → Subject e = EmptyString →
     DTopic (EDisplayRecipient e) = EmptyString →
     otherEmails b e ≠ [] →
       Respond' b e response w
       = posted constructRequest Do b
           (privateBody (Join (otherEmails b e) ", ") response) w)
  ∧ (response ≠ EmptyString → Subject e = EmptyString →
     DTopic (EDisplayRecipient e) = EmptyString →
     otherEmails b e = [] →
       Respond' b e response w
       = ((None,
           Some (fmt_Errorf
                   "EventMessage had no Users within the DisplayRecipient" [])),
          w))
  ∧ (response ≠ EmptyString → Subject e = EmptyString →
     DTopic (EDisplayRecipient e) ≠ EmptyString →
       Respond' b e response w
       = ((None, Some (fmt_Errorf notUnderstood [e])), w)).
Proof.
  split; [| split; [| split; [| split; [| split]]]].
  - intros Hr. unfold Bot_Respond. now rewrite decide_True.
  - intros Hr Hs Ht. unfold Bot_Respond. cbn [Topic].
    rewrite decide_False by exact Hr. rewrite decide_True by exact Hs.
    rewrite Message_stream;
      [| reflexivity | exact Hr | exact Ht | exact Hs].
    apply postMessages_posted.
  - intros Hr Hs Ht. unfold Bot_Respond. cbn [Topic].
    rewrite decide_False by exact Hr. rewrite decide_True by exact Hs.
    unfold Bot_Message. cbn [Content Emails Stream length].
    rewrite decide_False by exact Hr.
    rewrite decide_False by (intros H; now apply H).
    now rewrite decide_True.
  - intros Hr Hs Ht Hne.
    rewrite (Respond_private_path constructRequest Do b e response w Hr Hs Ht).
    unfold privateReply. rewrite privateResponseList_spec.
    destruct (otherEmails b e) as [|x xs] eqn:Hem; [congruence |].
    rewrite Message_private by (first [discriminate | exact Hr]).
    rewrite PrivateMessage_post; [| discriminate | now left].
    apply postMessages_posted.
  - intros Hr Hs Ht He.
    rewrite (Respond_private_path constructRequest Do b e response w Hr Hs Ht).
    unfold privateReply. rewrite privateResponseList_spec.
    now rewrite He.
  - intros Hr Hs Ht. unfold Bot_Respond. cbn [Stream Topic].
    rewrite decide_False by exact Hr.
    rewrite decide_False by (intros H; now apply H).
    now rewrite decide_False.
Qed.

End SendingMore.

(** *** The recipients of a private reply *)

Lemma filter_Email (me : string) (users : list User) :
  Email <$> filter (λ u, Email u ≠ me) users
  = filter (λ x, x ≠ me) (Email <$> users).
Proof.
  induction users as [|u users IH]; [reflexivity |].
  rewrite fmap_cons, !filter_cons. case_decide.
  - rewrite fmap_cons. now f_equal.
  - exact IH.
Qed.

(** X13: the list privateResponseList returns is exactly the emails of the
    event's Users that differ from the bot's own email, each as often and
    in the order it occurs there; it is not empty and does not hold the
    bot's email. *)
Theorem privateResponseList_recipients (b : Bot) (e : EventMessage)
    (out : list string) :
  Bot_privateResponseList b e = Ok out →
  out = filter (λ x, x ≠ BEmail b)
          (Email <$> elemsOf (Users (EDisplayRecipient e)))
  ∧ out ≠ []
  ∧ (BEmail b ∉ out).
Proof.
  rewrite privateResponseList_spec. unfold otherEmails.
  rewrite filter_Email.
  destruct (filter _ _) as [|x xs] eqn:Hf; [discriminate |].
  intros [= <-]. split; [reflexivity |]. split; [discriminate |].
  rewrite <- Hf. intros Hin.
  apply list_elem_of_filter in Hin as [Hne _]. now apply Hne.
Qed.

(** X14: privateResponseList fails exactly when every user of the event
    has the bot's email, in particular when the event has no Users. *)
Theorem privateResponseList_fails_iff (b : Bot) (e : EventMessage) :
  Bot_privateResponseList b e
  = Err (fmt_Errorf "EventMessage had no Users within the DisplayRecipient" [])
  ↔ Forall (λ u, Email u = BEmail b) (elemsOf (Users (EDisplayRecipient e))).
Proof.
  rewrite privateResponseList_spec. unfold otherEmails.
  induction (elemsOf (Users (EDisplayRecipient e))) as [|u us IH].
  - split; [constructor | reflexivity].
  - rewrite filter_cons. case_decide as Hu.
    + split; [discriminate |]. intros HF. inversion HF; congruence.
    + rewrite IH. split.
      * intros HF. now constructor.
      * intros HF. now inversion HF.
Qed.

(** *** Decoding a DisplayRecipient *)

(** X15: UnmarshalJSON sets the Topic and keeps the Users, or sets the
    Users and keeps the Topic, or fails and leaves the receiver as it
    was. *)
Theorem UnmarshalJSON_result (d : DisplayRecipient) (b : bytes) :
  (∃ topic, UnmarshalJSON d b = (mkDisplayRecipient (Users d) topic, None))
  ∨ (∃ users, UnmarshalJSON d b = (mkDisplayRecipient users (DTopic d), None))
  ∨ (∃ err, UnmarshalJSON d b = (d, Some err)).
Proof.
  unfold UnmarshalJSON.
  destruct (json.Unmarshal json.decodeString b EmptyString) as [topic|err1].
  - left. now exists topic.
  - destruct (json.Unmarshal decodeUsers b (Slice [zeroUser]))
      as [users|err2].
    + right. left. now exists users.
    + right. right. now exists err2.
Qed.

(** X16: bytes that are not a JSON text make UnmarshalJSON fail with the
    syntax error, and the receiver is left as it was. *)
Theorem UnmarshalJSON_syntax_error (d : DisplayRecipient) (b : bytes)
    (err : error) :
  json.parse b = Err err →
  UnmarshalJSON d b = (d, Some err).
Proof.
  intros H. unfold UnmarshalJSON.
  now rewrite !(Unmarshal_parse_error _ _ _ err H).
Qed.

(** X17: a JSON number, boolean or object makes UnmarshalJSON fail with
    the type error of the list decoding, which names the kind met and the
    type []gozulipbot.User, and the receiver is left as it was. *)
Theorem UnmarshalJSON_other_kind (d : DisplayRecipient) (b : bytes)
    (v : Value) :
  json.parse b = Ok v →
  otherKind v →
  UnmarshalJSON d b
  = (d, Some (UnmarshalTypeError (json.kindOf v) "[]gozulipbot.User")).
Proof.
  intros H Hk. unfold UnmarshalJSON, json.Unmarshal. rewrite H.
  destruct v; simpl in Hk; try (exfalso; exact Hk); reflexivity.
Qed.

(** X18: when the bytes are a JSON array and UnmarshalJSON succeeds, the
    Users are not nil and have one user for each element of the array, the
    user of a null element is the zero User, and the Topic is as it was. *)
Theorem UnmarshalJSON_users_length (d d' : DisplayRecipient) (b : bytes)
    (l : list json.node) :
  json.parse b = Ok (Array l) →
  UnmarshalJSON d b = (d', None) →
  length (elemsOf (Users d')) = length l
  ∧ Users d' ≠ nilSlice
  ∧ DTopic d' = DTopic d
  ∧ ∀ i raw,
      l !! i = Some (raw, Null) → elemsOf (Users d') !! i = Some zeroUser.
Proof.
  intros H. unfold UnmarshalJSON.
  rewrite (Unmarshal_string_Array b l) by exact H.
  unfold json.Unmarshal. rewrite H. simpl.
  unfold decodeUsers, json.decodeSlice. simpl.
  destruct (decodeElements_users [zeroUser] l None)
    as (users & saved & Hd & Hlen & _ & _).
  rewrite Hd. simpl. destruct saved; [discriminate |].
  intros [= <-]. simpl.
  split; [exact Hlen |]. split; [discriminate |]. split; [reflexivity |].
  apply (decodeElements_users_null [zeroUser] l None None users Hd).
  repeat constructor.
Qed.

(** X19: a JSON array with an element that is neither an object nor null
    makes UnmarshalJSON fail, and the receiver is left as it was: one
    malformed user refuses the whole list. *)
Theorem UnmarshalJSON_bad_user (d : DisplayRecipient) (b : bytes)
    (l : list json.node) :
  json.parse b = Ok (Array l) →
  Exists (λ n, notObjectOrNull n.2) l →
  ∃ err, UnmarshalJSON d b = (d, Some err).
Proof.
  intros H Hbad. unfold UnmarshalJSON.
  rewrite (Unmarshal_string_Array b l) by exact H.
  unfold json.Unmarshal. rewrite H. simpl.
  unfold decodeUsers, json.decodeSlice. simpl.
  destruct (decodeElements_users [zeroUser] l None)
    as (users & saved & -> & _ & _ & Hs).
  simpl. destruct (Hs Hbad) as [err ->]. now exists err.
Qed.

(** X20: decoding a JSON string and then a JSON array of users into the
    same DisplayRecipient leaves both the Topic and the Users set. *)
Theorem UnmarshalJSON_string_then_array (d : DisplayRecipient) (b1 b2 : bytes)
    (s : string) (l : list json.node) (users : slice User) :
  json.parse b1 = Ok (Str s) →
  json.parse b2 = Ok (Array l) →
  json.Unmarshal decodeUsers b2 nilSlice = Ok users →
  UnmarshalJSON (UnmarshalJSON d b1).1 b2 = (mkDisplayRecipient users s, None).
Proof.
  intros H1 H2 Hu. unfold UnmarshalJSON.
  rewrite (Unmarshal_string_Str b1 s) by exact H1.
  rewrite (Unmarshal_string_Array b2 l) by exact H2.
  rewrite Unmarshal_users_make, Hu. reflexivity.
Qed.

(** *** Parsing a poll response *)

Lemma parseEvents_inv (events : list (gmap string json.RawMessage))
    (acc out : list EventMessage) :
  parseEvents events acc = Ok out →
  ∃ msgs, out = acc ++ msgs ∧ Forall2 decodesTo events msgs.
Proof.
  revert acc. induction events as [|event events IH]; intros acc; simpl.
  - intros [= <-]. exists []. split; [now rewrite app_nil_r | constructor].
  - destruct (json.Unmarshal decodeEventMessage (index event "message")
                zeroEventMessage) as [msg|err] eqn:Hd; [| discriminate].
    simpl. intros H. apply IH in H as (msgs & -> & HF).
    exists (msg :: msgs). split; [now rewrite <- app_assoc |].
    now constructor.
Qed.

Lemma decodeRawMap_nonAborting : nonAborting json.decodeRawMap.
Proof.
  intros m [raw v] saved.
  unfold json.decodeRawMap, json.decodeStruct, json.mismatch.
  destruct v; simpl; eauto using saveError_keeps.
  apply decodeMembers_nonAborting. intros key a n s. eauto.
Qed.

Lemma decodeRawMap_notObject (m : gmap string json.RawMessage)
    (n : json.node) (saved : option error) :
  notObjectOrNull n.2 →
  ∃ m' saved', json.decodeRawMap m n saved = Ok (m', saved') ∧ is_Some saved'.
Proof.
  destruct n as [raw v].
  unfold json.decodeRawMap, json.decodeStruct, json.mismatch.
  destruct v; simpl; intros Hn; try (exfalso; exact Hn);
    eauto using saveError_Some.
Qed.

Lemma decodeElements_events (old : list (gmap string json.RawMessage))
    (l : list json.node) (saved : option error) :
  ∃ events saved',
    json.decodeElements json.decodeRawMap ∅ old l saved = Ok (events, saved')
    ∧ (∀ err, saved = Some err → saved' = Some err)
    ∧ (Exists (λ n, notObjectOrNull n.2) l → is_Some saved').
Proof.
  revert old saved. induction l as [|n l IH]; intros old saved.
  - simpl. exists [], saved. repeat split; [eauto |].
    intros H. inversion H.
  - simpl.
    destruct (decodeRawMap_nonAborting (hd ∅ old) n saved)
      as (m & saved1 & Hm & Hk1).
    rewrite Hm. simpl.
    destruct (IH (tl old) saved1) as (ms & saved2 & -> & Hk2 & Hbad).
    simpl. exists (m :: ms), saved2. repeat split.
    + intros err Hs. apply Hk2. now apply Hk1.
    + intros Hex. apply Exists_cons in Hex as [Hn | Hex]; [| now apply Hbad].
      destruct (decodeRawMap_notObject (hd ∅ old) n saved Hn)
        as (m' & saved' & Hm' & [err Hs]).
      rewrite Hm in Hm'. injection Hm' as <- <-. subst saved1.
      rewrite (Hk2 err eq_refl). eauto.
Qed.

(** X21: when the response decodes to an object whose "events" decode to a
    list of events and the "message" of every event decodes,
    ParseEventMessages returns these messages, one for each event, in the
    order of the events. *)
Theorem ParseEventMessages_all_decode (raw : bytes)
    (rawResponse : gmap string json.RawMessage)
    (events : slice (gmap string json.RawMessage))
    (msgs : list EventMessage) :
  json.Unmarshal json.decodeRawMap raw ∅ = Ok rawResponse →
  json.Unmarshal decodeEvents (index rawResponse "events") (Slice [])
  = Ok events →
  Forall2 decodesTo (elemsOf events) msgs →
  ParseEventMessages raw = Ok msgs ∧ length msgs = length (elemsOf events).
Proof.
  intros Hraw Hev HF. unfold ParseEventMessages.
  rewrite Hraw. simpl. rewrite Hev. simpl.
  rewrite (parseEvents_ok (elemsOf events) msgs []) by exact HF.
  split; [reflexivity |]. symmetry. exact (Forall2_length _ _ _ HF).
Qed.

(** X22: the messages ParseEventMessages returns are the decoded
    "message" of each event of the response, one for each event and in
    their order: no event is skipped and none is added. *)
Theorem ParseEventMessages_ok_inv (raw : bytes) (msgs : list EventMessage) :
  ParseEventMessages raw = Ok msgs →
  ∃ rawResponse events,
    json.Unmarshal json.decodeRawMap raw ∅ = Ok rawResponse
    ∧ json.Unmarshal decodeEvents (index rawResponse "events") (Slice [])
      = Ok events
    ∧ Forall2 decodesTo (elemsOf events) msgs
    ∧ length msgs = length (elemsOf events).
Proof.
  intros H. unfold ParseEventMessages in H.
  destruct (json.Unmarshal json.decodeRawMap raw ∅) as [rawResponse|err]
    eqn:Hraw; [| discriminate].
  simpl in H.
  destruct (json.Unmarshal decodeEvents (index rawResponse "events")
              (Slice [])) as [events|err] eqn:Hev; [| discriminate].
  simpl in H. apply parseEvents_inv in H as (ms & -> & HF).
  exists rawResponse, events.
  split; [reflexivity |]. split; [exact Hev |]. split; [exact HF |].
  symmetry. exact (Forall2_length _ _ _ HF).
Qed.

(** X23: a response that is not a JSON text is refused with the syntax
    error; a response that is a JSON text but not an object is refused
    too: with "unexpected end of JSON input" for null, whose map stays
    empty, and with a type error that names the kind met for the others. *)
Theorem ParseEventMessages_top_level (raw : bytes) :
  (∀ err, json.parse raw = Err err → ParseEventMessages raw = Err err)
  ∧ (json.parse raw = Ok Null →
     ParseEventMessages raw = Err json.unexpectedEnd)
  ∧ (∀ v, json.parse raw = Ok v → notObjectOrNull v →
       ParseEventMessages raw
       = Err (UnmarshalTypeError (json.kindOf v)
                "map[string]json.RawMessage")).
Proof.
  unfold ParseEventMessages, json.Unmarshal. split; [| split].
  - intros err H. now rewrite H.
  - intros H. now rewrite H.
  - intros v H Hn. rewrite H.
    destruct v; simpl in Hn; try (exfalso; exact Hn); reflexivity.
Qed.

(** X24: when "events" is null, ParseEventMessages returns the empty
    sequence and no error; when it is a string, a number, a boolean or an
    object, ParseEventMessages fails with a type error that names the
    kind met. *)
Theorem ParseEventMessages_events_kind (raw : bytes)
    (rawResponse : gmap string json.RawMessage) (ev : bytes) (v : Value) :
  json.Unmarshal json.decodeRawMap raw ∅ = Ok rawResponse →
  rawResponse !! "events" = Some ev →
  json.parse ev = Ok v →
  (v = Null → ParseEventMessages raw = Ok [])
  ∧ (v ≠ Null → (∀ l, v ≠ Array l) →
       ParseEventMessages raw
       = Err (UnmarshalTypeError (json.kindOf v)
                "[]map[string]json.RawMessage")).
Proof.
  intros Hraw Hev Hp. unfold ParseEventMessages. rewrite Hraw. simpl.
  unfold index. rewrite Hev. simpl. unfold json.Unmarshal. rewrite Hp.
  split.
  - intros ->. reflexivity.
  - intros Hn Ha. destruct v; try reflexivity; [congruence |].
    now destruct (Ha elements).
Qed.

(** X25: an element of "events" that is neither an object nor null makes
    ParseEventMessages fail. *)
Theorem ParseEventMessages_bad_event (raw : bytes)
    (rawResponse : gmap string json.RawMessage) (ev : bytes)
    (l : list json.node) :
  json.Unmarshal json.decodeRawMap raw ∅ = Ok rawResponse →
  rawResponse !! "events" = Some ev →
  json.parse ev = Ok (Array l) →
  Exists (λ n, notObjectOrNull n.2) l →
  ∃ err, ParseEventMessages raw = Err err.
Proof.
  intros Hraw Hev Hp Hbad. unfold ParseEventMessages. rewrite Hraw. simpl.
  unfold index. rewrite Hev. simpl. unfold json.Unmarshal. rewrite Hp.
  simpl. unfold decodeEvents, json.decodeSlice. simpl.
  destruct (decodeElements_events [] l None)
    as (events & saved & -> & _ & Hs).
  simpl. destruct (Hs Hbad) as [err ->]. now exists err.
Qed.

(** X26: an event without a "message" key, after events that decode, makes
    ParseEventMessages fail with "unexpected end of JSON input", whatever
    the events after it are: a poll response with an event that is not a
    message is refused as a whole. *)
Theorem ParseEventMessages_event_without_message (raw : bytes)
    (rawResponse : gmap string json.RawMessage)
    (pre post : list (gmap string json.RawMessage))
    (event : gmap string json.RawMessage) (msgs : list EventMessage) :
  json.Unmarshal json.decodeRawMap raw ∅ = Ok rawResponse →
  json.Unmarshal decodeEvents (index rawResponse "events") (Slice [])
  = Ok (Slice (pre ++ event :: post)) →
  Forall2 decodesTo pre msgs →
  event !! "message" = None →
  ParseEventMessages raw = Err json.unexpectedEnd.
Proof.
  intros Hraw Hev Hpre Hno. unfold ParseEventMessages.
  rewrite Hraw. simpl. rewrite Hev. simpl.
  apply (parseEvents_first_error pre post event msgs); [exact Hpre |].
  unfold index. rewrite Hno. reflexivity.
Qed.

(** X27: an event whose "message" is null decodes to the zero
    EventMessage, and one whose "message" is a string, a number, a boolean
    or an array is refused with a type error that names the kind met. *)
Theorem message_kind (event : gmap string json.RawMessage) (rawMsg : bytes)
    (v : Value) :
  event !! "message" = Some rawMsg →
  json.parse rawMsg = Ok v →
  (v = Null → decodesTo event zeroEventMessage)
  ∧ (notObjectOrNull v →
       json.Unmarshal decodeEventMessage (index event "message")
         zeroEventMessage
       = Err (UnmarshalTypeError (json.kindOf v) "gozulipbot.EventMessage")).
Proof.
  intros Hev Hp. unfold decodesTo, index. rewrite Hev. simpl.
  unfold json.Unmarshal. rewrite Hp. split.
  - intros ->. reflexivity.
  - intros Hn. destruct v; simpl in Hn; try (exfalso; exact Hn); reflexivity.
Qed.

(** *** The client of the tests *)

(** X28: with the client of the tests, a message that passes the checks of
    Message and whose request is constructed returns the response the
    client was set up with and no error; afterwards the client holds that
    request and the same response. *)
Theorem Message_testClient
    (constructRequest : Bot → string → string → string → res testRequest)
    (b : Bot) (m : Message) (w : World testRequest testClient)
    (req : testRequest) :
  Content m ≠ EmptyString →
  Emails m ≠ [] ∨ (Stream m ≠ EmptyString ∧ Topic m ≠ EmptyString) →
  Bot_constructMessageRequest constructRequest b m = Ok req →
  Bot_Message constructRequest testClient_Do b m w
  = ((tcResponse (client w), None),
     mkWorld (mkTestClient (Some req) (tcResponse (client w)))
       (sent w ++ [req])).
Proof.
  intros HC Hor Hreq. unfold Bot_Message, Bot_PrivateMessage.
  rewrite decide_False by exact HC.
  destruct (Emails m) as [|e es] eqn:HE.
  - destruct Hor as [Hne | [HS HT]]; [congruence |].
    cbn [length]. rewrite decide_False by (intros H; now apply H).
    rewrite decide_False by exact HS. rewrite decide_False by exact HT.
    now rewrite Hreq.
  - cbn [length]. rewrite decide_True by discriminate.
    rewrite decide_False by discriminate. now rewrite Hreq.
Qed.

Lemma Respond_classification_witness :
  testRespond testBot streamEvent EmptyString testWorld
  = ((None, Some (errors_New "Message response cannot be blank")), testWorld)
  ∧ testRespond testBot streamEvent "hello" testWorld
    = ((Some "200 OK", None),
       testSent "content=hello&subject=t1&to=general&type=stream")
  ∧ testRespond testBot subjectOnlyEvent "hello" testWorld
    = ((None, Some (errors_New "stream cannot be empty")), testWorld)
  ∧ testRespond testBot privateEvent "hello" testWorld
    = ((Some "200 OK", None),
       testSent "content=hello&to=a%40x.com%2C+b%40x.com&type=private")
  ∧ testRespond testBot lonelyEvent "hello" testWorld
    = ((None,
        Some (fmt_Errorf
                "EventMessage had no Users within the DisplayRecipient" [])),
       testWorld)
  ∧ testRespond testBot oddEvent "hello" testWorld
    = ((None, Some (fmt_Errorf notUnderstood [oddEvent])), testWorld).
Proof.
  assert (Hr : "hello" ≠ EmptyString) by discriminate.
  unfold testRespond.
  split; [| split; [| split; [| split; [| split]]]].
  - destruct (Respond_classification testConstructRequest testClient_Do
                testBot streamEvent EmptyString testWorld) as (H & _).
    apply H. reflexivity.
  - destruct (Respond_classification testConstructRequest testClient_Do
                testBot streamEvent "hello" testWorld) as (_ & H & _).
    rewrite H; [| exact Hr | discriminate | discriminate].
    vm_compute. reflexivity.
  - destruct (Respond_classification testConstructRequest testClient_Do
                testBot subjectOnlyEvent "hello" testWorld) as (_ & _ & H & _).
    apply H; [exact Hr | discriminate | reflexivity].
  - destruct (Respond_classification testConstructRequest testClient_Do
                testBot privateEvent "hello" testWorld)
      as (_ & _ & _ & H & _).
    rewrite H; [| exact Hr | reflexivity | reflexivity | discriminate].
    vm_compute. reflexivity.
  - destruct (Respond_classification testConstructRequest testClient_Do
                testBot lonelyEvent "hello" testWorld)
      as (_ & _ & _ & _ & H & _).
    apply H; [exact Hr | reflexivity ..].
  - destruct (Respond_classification testConstructRequest testClient_Do
                testBot oddEvent "hello" testWorld)
      as (_ & _ & _ & _ & _ & H).
    apply H; [exact Hr | reflexivity | discriminate].
Defined.

(** C3 as stated fails on the code: for an event with the Subject "t1" and
    an empty DisplayRecipient.Topic, Respond with a reply text does not
    send a stream message; it fails with "stream cannot be empty" and no
    request is handed to the client. *)
Lemma Respond_classification_counterexample :
  Subject subjectOnlyEvent ≠ EmptyString
  ∧ DTopic (EDisplayRecipient subjectOnlyEvent) = EmptyString
  ∧ testRespond testBot subjectOnlyEvent "hello" testWorld
    = ((None, Some (errors_New "stream cannot be empty")), testWorld)
  ∧ sent (testRespond testBot subjectOnlyEvent "hello" testWorld).2 = [].
Proof.
  split; [discriminate |]. split; [reflexivity |].
  split; vm_compute; reflexivity.
Qed.

(** ** The further properties at concrete inputs *)

Lemma to_single_email_witness :
  Emails (mkMessage "general" "t1" ["a@x.com"] "hi") = ["a@x.com"]
  ∧ url.Get "to" (messageValues (mkMessage "general" "t1" ["a@x.com"] "hi"))
    = "a@x.com".
Proof.
  split; [reflexivity |].
  apply (to_single_email (mkMessage "general" "t1" ["a@x.com"] "hi")).
  reflexivity.
Defined.

Lemma to_emails_without_stream_witness :
  url.Get "to"
    (messageValues
       (mkMessage EmptyString "t1" ["a@x.com"; "b@x.com"; "c@x.com"] "hi"))
  = "a@x.com, b@x.com, c@x.com".
Proof.
  apply (to_emails_without_stream
           (mkMessage EmptyString "t1" ["a@x.com"; "b@x.com"; "c@x.com"] "hi"));
    [discriminate | reflexivity].
Defined.

Lemma Message_stream_validation_witness :
  testMessage testBot (mkMessage EmptyString "t1" [] "hi") testWorld
  = ((None, Some (errors_New "stream cannot be empty")), testWorld)
  ∧ testMessage testBot (mkMessage "general" EmptyString [] "hi") testWorld
    = ((None, Some (errors_New "topic cannot be empty")), testWorld).
Proof.
  split.
  - apply (Message_stream_validation testConstructRequest testClient_Do
             testBot (mkMessage EmptyString "t1" [] "hi") testWorld);
      [reflexivity | discriminate | reflexivity].
  - apply (Message_stream_validation testConstructRequest testClient_Do
             testBot (mkMessage "general" EmptyString [] "hi") testWorld);
      [reflexivity | discriminate | discriminate | reflexivity].
Defined.

Lemma Message_stream_send_witness :
  testMessage testBot (mkMessage "general" "t 1" [] "hi & bye") testWorld
  = ((Some "200 OK", None),
     testSent "content=hi+%26+bye&subject=t+1&to=general&type=stream").
Proof.
  unfold testMessage.
  rewrite (Message_stream_send testConstructRequest testClient_Do testBot
             (mkMessage "general" "t 1" [] "hi & bye") testWorld);
    [| reflexivity | discriminate | discriminate | discriminate].
  vm_compute. reflexivity.
Defined.

Lemma PrivateMessage_no_recipient_witness :
  testPrivateMessage testBot (mkMessage "general" "t1" [] "hi") testWorld
  = ((None, Some (errors_New "there must be at least one recipient")),
     testWorld).
Proof.
  apply (PrivateMessage_no_recipient testConstructRequest testClient_Do
           testBot (mkMessage "general" "t1" [] "hi") testWorld).
  reflexivity.
Defined.

Lemma PrivateMessage_send_witness :
  testPrivateMessage testBot
    (mkMessage "general" "t1" ["a@x.com"] "hi") testWorld
  = ((Some "200 OK", None), testSent "content=hi&to=a%40x.com&type=private")
  ∧ testPrivateMessage testBot
      (mkMessage EmptyString EmptyString ["a@x.com"; "b@x.com"] "hi")
      testWorld
    = ((Some "200 OK", None),
       testSent "content=hi&to=a%40x.com%2C+b%40x.com&type=private").
Proof.
  unfold testPrivateMessage. split.
  - rewrite (PrivateMessage_send testConstructRequest testClient_Do testBot
               (mkMessage "general" "t1" ["a@x.com"] "hi") testWorld);
      [| discriminate | right; reflexivity].
    vm_compute. reflexivity.
  - rewrite (PrivateMessage_send testConstructRequest testClient_Do testBot
               (mkMessage EmptyString EmptyString ["a@x.com"; "b@x.com"] "hi")
               testWorld);
      [| discriminate | left; reflexivity].
    vm_compute. reflexivity.
Defined.

Lemma Respond_stream_reply_witness :
  testRespond testBot streamEvent "hello" testWorld
  = ((Some "200 OK", None),
     testSent "content=hello&subject=t1&to=general&type=stream").
Proof.
  unfold testRespond.
  rewrite (Respond_stream_reply testConstructRequest testClient_Do testBot
             streamEvent "hello" testWorld);
    [| discriminate | discriminate | discriminate].
  vm_compute. reflexivity.
Defined.

Lemma Respond_subject_without_stream_witness :
  testRespond testBot (setSubject "t1" privateEvent) "hello" testWorld
  = ((None, Some (errors_New "stream cannot be empty")), testWorld).
Proof.
  apply (Respond_subject_without_stream testConstructRequest testClient_Do
           testBot (setSubject "t1" privateEvent) "hello" testWorld);
    [discriminate | discriminate | reflexivity].
Defined.

Lemma Respond_private_body_witness :
  testRespond testBot privateEvent "hello" testWorld
  = ((Some "200 OK", None),
     testSent "content=hello&to=a%40x.com%2C+b%40x.com&type=private").
Proof.
  unfold testRespond.
  rewrite (Respond_private_body testConstructRequest testClient_Do testBot
             privateEvent "hello" testWorld);
    [| discriminate | reflexivity | reflexivity | discriminate].
  vm_compute. reflexivity.
Defined.

Lemma privateResponseList_recipients_witness :
  Bot_privateResponseList testBot chattyEvent
  = Ok ["a@x.com"; "b@x.com"; "a@x.com"]
  ∧ ["a@x.com"; "b@x.com"; "a@x.com"]
    = filter (λ x, x ≠ BEmail testBot)
        (Email <$> elemsOf (Users (EDisplayRecipient chattyEvent)))
  ∧ (BEmail testBot ∉ ["a@x.com"; "b@x.com"; "a@x.com"]).
Proof.
  assert (H : Bot_privateResponseList testBot chattyEvent
              = Ok ["a@x.com"; "b@x.com"; "a@x.com"]) by reflexivity.
  split; [exact H |].
  destruct (privateResponseList_recipients testBot chattyEvent _ H)
    as (Hout & _ & Hbot).
  split; [exact Hout | exact Hbot].
Defined.

Lemma privateResponseList_fails_iff_witness :
  Bot_privateResponseList testBot lonelyEvent
  = Err (fmt_Errorf "EventMessage had no Users within the DisplayRecipient" []).
Proof.
  apply (privateResponseList_fails_iff testBot lonelyEvent).
  repeat constructor.
Defined.

Lemma UnmarshalJSON_syntax_error_witness :
  json.parse "[{" = Err json.unexpectedEnd
  ∧ UnmarshalJSON zeroDisplayRecipient "[{"
    = (zeroDisplayRecipient, Some json.unexpectedEnd).
Proof.
  assert (H : json.parse "[{" = Err json.unexpectedEnd)
    by (vm_compute; reflexivity).
  split; [exact H |].
  exact (UnmarshalJSON_syntax_error zeroDisplayRecipient "[{" _ H).
Defined.

Lemma UnmarshalJSON_other_kind_witness :
  UnmarshalJSON zeroDisplayRecipient "true"
  = (zeroDisplayRecipient,
     Some (UnmarshalTypeError "bool" "[]gozulipbot.User")).
Proof.
  apply (UnmarshalJSON_other_kind zeroDisplayRecipient "true" (Bool true));
    [vm_compute; reflexivity | exact I].
Defined.

Lemma UnmarshalJSON_users_length_witness :
  length
    (elemsOf
       (Users
          (UnmarshalJSON zeroDisplayRecipient
             (dq "[{'email':'a@x.com'},null]")).1))
  = 2
  ∧ elemsOf
      (Users
         (UnmarshalJSON zeroDisplayRecipient
            (dq "[{'email':'a@x.com'},null]")).1) !! 1
    = Some zeroUser.
Proof.
  destruct (UnmarshalJSON_users_length zeroDisplayRecipient
              (UnmarshalJSON zeroDisplayRecipient
                 (dq "[{'email':'a@x.com'},null]")).1
              (dq "[{'email':'a@x.com'},null]")
              [(dq "{'email':'a@x.com'}",
                Object [("email", (dq "'a@x.com'", Str "a@x.com"))]);
               ("null", Null)])
    as (Hlen & _ & _ & Hnull).
  - vm_compute. reflexivity.
  - vm_compute. reflexivity.
  - split; [exact Hlen |]. apply (Hnull 1 "null"). reflexivity.
Defined.

Lemma UnmarshalJSON_bad_user_witness :
  ∃ err,
    UnmarshalJSON zeroDisplayRecipient (dq "[{'email':'a@x.com'},7]")
    = (zeroDisplayRecipient, Some err).
Proof.
  apply (UnmarshalJSON_bad_user zeroDisplayRecipient
           (dq "[{'email':'a@x.com'},7]")
           [(dq "{'email':'a@x.com'}",
             Object [("email", (dq "'a@x.com'", Str "a@x.com"))]);
            ("7", Number "7")]).
  - vm_compute. reflexivity.
  - apply Exists_cons_tl, Exists_cons_hd. exact I.
Defined.

Lemma UnmarshalJSON_string_then_array_witness :
  UnmarshalJSON (UnmarshalJSON zeroDisplayRecipient (dq "'general'")).1
    (dq "[{'email':'a@x.com'}]")
  = (mkDisplayRecipient (Slice [userOf "a@x.com"]) "general", None).
Proof.
  apply (UnmarshalJSON_string_then_array zeroDisplayRecipient
           (dq "'general'") (dq "[{'email':'a@x.com'}]") "general"
           [(dq "{'email':'a@x.com'}",
             Object [("email", (dq "'a@x.com'", Str "a@x.com"))])]);
    vm_compute; reflexivity.
Defined.

Lemma ParseEventMessages_all_decode_witness :
  ParseEventMessages twoEvents
  = Ok [streamEvent;
        setEDisplayRecipient
          (mkDisplayRecipient (Slice [userOf "a@x.com"]) EmptyString)
          zeroEventMessage].
Proof.
  eapply (ParseEventMessages_all_decode twoEvents _
            (Slice
               [ {[ "message" :=
                      dq "{'subject':'t1','display_recipient':'general'}" ]};
                 {[ "message" :=
                      dq "{'display_recipient':[{'email':'a@x.com'}]}" ]} ])).
  - vm_compute. reflexivity.
  - vm_compute. reflexivity.
  - constructor; [vm_compute; reflexivity |].
    constructor; [vm_compute; reflexivity | constructor].
Defined.

Lemma ParseEventMessages_ok_inv_witness :
  ∃ rawResponse events,
    json.Unmarshal json.decodeRawMap twoEvents ∅ = Ok rawResponse
    ∧ json.Unmarshal decodeEvents (index rawResponse "events") (Slice [])
      = Ok events
    ∧ Forall2 decodesTo (elemsOf events)
        [streamEvent;
         setEDisplayRecipient
           (mkDisplayRecipient (Slice [userOf "a@x.com"]) EmptyString)
           zeroEventMessage]
    ∧ 2 = length (elemsOf events).
Proof.
  apply (ParseEventMessages_ok_inv twoEvents). vm_compute. reflexivity.
Defined.

Lemma ParseEventMessages_top_level_witness :
  ParseEventMessages "{" = Err json.unexpectedEnd
  ∧ ParseEventMessages "null" = Err json.unexpectedEnd
  ∧ ParseEventMessages "[]"
    = Err (UnmarshalTypeError "array" "map[string]json.RawMessage").
Proof.
  split; [| split].
  - destruct (ParseEventMessages_top_level "{") as (H & _ & _).
    apply H. vm_compute. reflexivity.
  - destruct (ParseEventMessages_top_level "null") as (_ & H & _).
    apply H. vm_compute. reflexivity.
  - destruct (ParseEventMessages_top_level "[]") as (_ & _ & H).
    apply (H (Array [])); [vm_compute; reflexivity | exact I].
Defined.

Lemma ParseEventMessages_events_kind_witness :
  ParseEventMessages (dq "{'events':null}") = Ok []
  ∧ ParseEventMessages (dq "{'events':7}")
    = Err (UnmarshalTypeError "number" "[]map[string]json.RawMessage").
Proof.
  split.
  - eapply (ParseEventMessages_events_kind (dq "{'events':null}") _ "null"
              Null); [vm_compute; reflexivity .. | reflexivity].
  - eapply (ParseEventMessages_events_kind (dq "{'events':7}") _ "7"
              (Number "7")); [vm_compute; reflexivity .. | | ];
      discriminate.
Defined.

Lemma ParseEventMessages_bad_event_witness :
  ∃ err, ParseEventMessages (dq "{'events':[{},7]}") = Err err.
Proof.
  eapply (ParseEventMessages_bad_event (dq "{'events':[{},7]}") _ "[{},7]"
            [("{}", Object []); ("7", Number "7")]).
  - vm_compute. reflexivity.
  - vm_compute. reflexivity.
  - vm_compute. reflexivity.
  - apply Exists_cons_tl, Exists_cons_hd. exact I.
Defined.

Lemma ParseEventMessages_event_without_message_witness :
  ParseEventMessages heartbeatOnly = Err json.unexpectedEnd.
Proof.
  eapply (ParseEventMessages_event_without_message heartbeatOnly _ [] []
            {[ "type" := dq "'heartbeat'"; "id" := "0" ]} []).
  - vm_compute. reflexivity.
  - vm_compute. reflexivity.
  - constructor.
  - vm_compute. reflexivity.
Defined.

Lemma message_kind_witness :
  decodesTo {[ "message" := "null" ]} zeroEventMessage
  ∧ json.Unmarshal decodeEventMessage
      (index {[ "message" := "[1]" ]} "message") zeroEventMessage
    = Err (UnmarshalTypeError "array" "gozulipbot.EventMessage").
Proof.
  split.
  - apply (message_kind {[ "message" := "null" ]} "null" Null);
      [vm_compute; reflexivity .. | reflexivity].
  - apply (message_kind {[ "message" := "[1]" ]} "[1]"
             (Array [("1", Number "1")]));
      [vm_compute; reflexivity .. | exact I].
Defined.

Lemma Message_testClient_witness :
  testMessage testBot (mkMessage "general" "t1" [] "hi") testWorld
  = ((Some "200 OK", None),
     testSent "content=hi&subject=t1&to=general&type=stream").
Proof.
  apply (Message_testClient testConstructRequest testBot
           (mkMessage "general" "t1" [] "hi") testWorld
           (mkTestRequest "POST" "messages"
              "content=hi&subject=t1&to=general&type=stream")).
  - discriminate.
  - right. split; discriminate.
  - vm_compute. reflexivity.
Defined.
